(** * solo-ui command line tool: a shallow embedding and its properties

    The repository holds two copies of the command line entry point:
      - [src/packages/cli/src/index.ts]  (module [PackagesCli] below),
      - [src/unnamed/part_001]           (module [Part001] below).
    Both expose the commands [add], [init] and [list]; they differ in the
    project layout they write to ([components/] against [src/components/]),
    in the catalog directory [add] reads, and in what [list] offers.

    The file system, the git client, the JSON codec, the prompt and the
    spinner are collaborators of the program.  They are modelled here by a
    tree of files, an environment record of oracles, and an event log. *)

From Stdlib Require Import String Ascii List Bool Arith Lia QArith.
From Stdlib Require Import DecimalString.
Import ListNotations.
Local Close Scope Q_scope.
Local Open Scope list_scope.
Local Open Scope string_scope.

Set Implicit Arguments.
Set Warnings "-register-all".

(* ================================================================= *)
(** ** Strings, as the program uses them *)

(** [s.startsWith(t)] *)
Definition startsWith (s t : string) : bool := prefix t s.

(** [s.includes(t)]: [t] occurs in [s] at some position. *)
Fixpoint includes (s t : string) : bool :=
  prefix t s ||
  match s with
  | EmptyString => false
  | String _ s' => includes s' t
  end.

(** Number of positions of [s] at which [t] occurs.  This is the reading of
    "occurrences of the fragment's text" used for the style merger. *)
Fixpoint occurrences (t s : string) : nat :=
  (if prefix t s then 1 else 0) +
  match s with
  | EmptyString => 0
  | String _ s' => occurrences t s'
  end.

(** [array.includes(x)] on an array of strings. *)
Definition array_includes (l : list string) (x : string) : bool :=
  existsb (String.eqb x) l.

Definition newline : string := String (ascii_of_nat 10) EmptyString.

(* ================================================================= *)
(** ** Paths: [path.join] on POSIX *)

(** An absolute path is the list of its segments below the root. *)
Definition path := list string.

Fixpoint split_on (sep : ascii) (s : string) : list string :=
  match s with
  | EmptyString => [EmptyString]
  | String c s' =>
      if Ascii.eqb c sep then EmptyString :: split_on sep s'
      else match split_on sep s' with
           | [] => [String c EmptyString]
           | w :: ws => String c w :: ws
           end
  end.

(** Normalisation: empty and ["."] segments vanish, [".."] pops a segment
    and stays at the root when there is none.  [stack] is reversed. *)
Fixpoint normalize (stack : list string) (segs : list string) : path :=
  match segs with
  | [] => rev stack
  | s :: rest =>
      if (s =? EmptyString) || (s =? ".") then normalize stack rest
      else if s =? ".." then normalize (tl stack) rest
      else normalize (s :: stack) rest
  end.

(** [path.join(base, part1, ..., partn)] for an absolute, normalised [base]. *)
Definition path_join (base : path) (parts : list string) : path :=
  normalize (rev base) (flat_map (split_on "/") parts).

Fixpoint path_eqb (p q : path) : bool :=
  match p, q with
  | [], [] => true
  | a :: p', b :: q' => (a =? b) && path_eqb p' q'
  | _, _ => false
  end.

Fixpoint is_prefix (p q : path) : bool :=
  match p, q with
  | [], _ => true
  | a :: p', b :: q' => (a =? b) && is_prefix p' q'
  | _ :: _, [] => false
  end.

Definition show_path (p : path) : string :=
  fold_right (fun s acc => "/" ++ s ++ acc) EmptyString p.

(* ================================================================= *)
(** ** The file tree *)

Inductive Node : Type :=
| File (content : string)
| Dir (entries : list (string * Node)).

Section Assoc.
Context {A : Type}.

Fixpoint assoc (k : string) (l : list (string * A)) : option A :=
  match l with
  | [] => None
  | (k', v) :: l' => if k =? k' then Some v else assoc k l'
  end.

(** Replace the binding of [k] where it stands, or add it at the end (the
    order in which a JS object or a directory gains a new name; the place JS
    gives to keys that look like array indices is not modelled). *)
Fixpoint set_assoc (k : string) (v : A) (l : list (string * A))
  : list (string * A) :=
  match l with
  | [] => [(k, v)]
  | (k', v') :: l' =>
      if k =? k' then (k, v) :: l' else (k', v') :: set_assoc k v l'
  end.

Fixpoint del_assoc (k : string) (l : list (string * A))
  : list (string * A) :=
  match l with
  | [] => []
  | (k', v') :: l' =>
      if k =? k' then del_assoc k l' else (k', v') :: del_assoc k l'
  end.
End Assoc.

Fixpoint lookup (p : path) (n : Node) : option Node :=
  match p with
  | [] => Some n
  | s :: p' =>
      match n with
      | File _ => None
      | Dir es =>
          match assoc s es with
          | Some c => lookup p' c
          | None => None
          end
      end
  end.

Definition exists_at (p : path) (n : Node) : bool :=
  match lookup p n with Some _ => true | None => false end.

Definition is_dir (o : option Node) : bool :=
  match o with Some (Dir _) => true | _ => false end.

(** Put [x] at [p], creating the missing directories on the way
    ([mkdir -p] followed by a write).  [None] when a segment of the way is
    a regular file. *)
Fixpoint place (p : path) (x : Node) (n : option Node) : option Node :=
  match p with
  | [] => Some x
  | s :: p' =>
      match n with
      | Some (File _) => None
      | Some (Dir es) =>
          match place p' x (assoc s es) with
          | Some c => Some (Dir (set_assoc s c es))
          | None => None
          end
      | None =>
          match place p' x None with
          | Some c => Some (Dir [(s, c)])
          | None => None
          end
      end
  end.

(** Recursive removal of the entry at [p]; nothing happens when it is absent.
    The root itself is never removed. *)
Fixpoint rm (p : path) (n : Node) : Node :=
  match p with
  | [] => n
  | s :: p' =>
      match n with
      | File _ => n
      | Dir es =>
          match p' with
          | [] => Dir (del_assoc s es)
          | _ :: _ =>
              match assoc s es with
              | Some c => Dir (set_assoc s (rm p' c) es)
              | None => n
              end
          end
      end
  end.

(** What [fs-extra]'s recursive [copy] leaves at the destination: files
    overwrite files, directories merge entry by entry, and a file meeting a
    directory (either way round) stops the copy.  The boolean is [false]
    when the copy stopped; the entries copied before that remain. *)
Fixpoint overlay (src : Node) (dst : option Node) {struct src}
  : bool * option Node :=
  match src with
  | File c =>
      match dst with
      | Some (Dir _) => (false, dst)
      | _ => (true, Some (File c))
      end
  | Dir es =>
      match dst with
      | Some (File _) => (false, dst)
      | _ =>
          let ds0 := match dst with Some (Dir ds) => ds | _ => [] end in
          let fix go (es : list (string * Node)) (ds : list (string * Node))
            {struct es} : bool * list (string * Node) :=
            match es with
            | [] => (true, ds)
            | (k, child) :: es' =>
                match overlay child (assoc k ds) with
                | (true, Some c) => go es' (set_assoc k c ds)
                | (true, None) => go es' ds
                | (false, Some c) => (false, set_assoc k c ds)
                | (false, None) => (false, ds)
                end
            end in
          let '(ok, ds') := go es ds0 in (ok, Some (Dir ds'))
      end
  end.

(* ================================================================= *)
(** ** JSON values and the JS operations the manifest update applies *)

Inductive Json : Type :=
| JNull
| JBool (b : bool)
| JNum (q : Q)
| JStr (s : string)
| JArr (items : list Json)
| JObj (fields : list (string * Json)).

(** Truthiness of the result of a property read; [None] is [undefined]. *)
Definition truthy (v : option Json) : bool :=
  match v with
  | None => false
  | Some JNull => false
  | Some (JBool b) => b
  | Some (JNum q) => negb (Qeq_bool q 0%Q)
  | Some (JStr s) => negb (s =? EmptyString)
  | Some (JArr _) => true
  | Some (JObj _) => true
  end.

Definition index_key (i : nat) : string :=
  NilEmpty.string_of_uint (Nat.to_uint i).

Fixpoint indexed {A : Type} (f : A -> Json) (i : nat) (l : list A)
  : list (string * Json) :=
  match l with
  | [] => []
  | x :: l' => (index_key i, f x) :: indexed f (S i) l'
  end.

(** Own enumerable properties copied by an object spread [{...v}]. *)
Definition spread (v : option Json) : list (string * Json) :=
  match v with
  | Some (JObj fields) => fields
  | Some (JArr items) => indexed (fun j => j) 0 items
  | Some (JStr s) =>
      indexed (fun c => JStr (String c EmptyString)) 0 (list_ascii_of_string s)
  | _ => []
  end.

(* ================================================================= *)
(** ** Errors, events, environment and state *)

Inductive Error : Type :=
| Err (message : string)              (* [new Error(message)] of the program *)
| FsErr (code : string) (p : path)    (* raised by fs-extra *)
| GitErr (message : string)           (* raised by simple-git *)
| TypeErr (message : string)
| SyntaxErr (message : string).

Definition message (e : Error) : string :=
  match e with
  | Err m => m
  | FsErr code p => code ++ ": " ++ show_path p
  | GitErr m => m
  | TypeErr m => m
  | SyntaxErr m => m
  end.

Inductive FsOp : Type :=
| PathExists | ReadFile | ReadJson | Readdir | Stat
| EnsureDir | WriteFile | AppendFile | WriteJson | Copy | Remove.

Definition mutating (op : FsOp) : bool :=
  match op with
  | PathExists | ReadFile | ReadJson | Readdir | Stat => false
  | EnsureDir | WriteFile | AppendFile | WriteJson | Copy | Remove => true
  end.

Inductive SpinnerOp : Type := Start | Succeed | Fail | Info | Stop.

Inductive Event : Type :=
| EvFs (op : FsOp) (p : path)
| EvClone (url : string) (dest : path)
| EvSpinner (op : SpinnerOp) (text : string)
| EvWarn (text : string)
| EvLog (text : string)
| EvPrompt (choices : list string).

(** What the world outside the program decides during one invocation. *)
Record Env : Type := mkEnv {
  cwd : path;                                 (* [process.cwd()] *)
  remote : option (list (string * Node));     (* work tree a clone yields;
                                                 [None]: the fetch fails *)
  choice : option nat;                        (* position picked in the
                                                 prompt; [None]: cancelled *)
  remove_fails : bool;                        (* the OS refuses the removal *)
  parse : string -> option Json;              (* [JSON.parse] *)
  stringify : Json -> string                  (* [JSON.stringify(_, null, 2)] *)
}.

Record State : Type := mkState {
  fs : Node;
  log : list Event           (* oldest event first *)
}.

Inductive Completion (A : Type) : Type :=
| Normal (a : A)
| Throw (e : Error).
Arguments Normal {A} a.
Arguments Throw {A} e.

(** Computations: a state transformer that completes normally or throws. *)
Definition M (A : Type) : Type := State -> Completion A * State.

Definition ret {A : Type} (a : A) : M A := fun st => (Normal a, st).

Definition bind {A B : Type} (m : M A) (k : A -> M B) : M B :=
  fun st =>
    match m st with
    | (Normal a, st') => k a st'
    | (Throw e, st') => (Throw e, st')
    end.

Definition throw {A : Type} (e : Error) : M A := fun st => (Throw e, st).

Notation "x <- m ;; k" := (bind m (fun x => k))
  (at level 61, m at next level, right associativity).
Notation "m ;; k" := (bind m (fun _ => k))
  (at level 61, right associativity).

(** [try { body } catch (error) { handler error }] *)
Definition try_catch {A : Type} (body : M A) (handler : Error -> M A) : M A :=
  fun st =>
    match body st with
    | (Normal a, st') => (Normal a, st')
    | (Throw e, st') => handler e st'
    end.

(** [try { body } catch (error) { handler error } finally { finalizer }]:
    the finalizer runs on every path, and its own exception wins. *)
Definition try_catch_finally {A : Type}
  (body : M A) (handler : Error -> M A) (finalizer : M unit) : M A :=
  fun st =>
    let '(r, st1) := try_catch body handler st in
    match finalizer st1 with
    | (Normal _, st2) => (r, st2)
    | (Throw e, st2) => (Throw e, st2)
    end.

Definition emit (e : Event) : M unit :=
  fun st => (Normal tt, mkState (fs st) ((log st ++ [e])%list)).

Definition set_fs (n : Node) : M unit :=
  fun st => (Normal tt, mkState n (log st)).

Definition get_fs : M Node := fun st => (Normal (fs st), st).

(** The state a computation ends in, and how it completes. *)
Definition exec {A : Type} (m : M A) (st : State) : State := snd (m st).
Definition completion {A : Type} (m : M A) (st : State) : Completion A :=
  fst (m st).

(* ================================================================= *)
(** ** The collaborators *)

(** *** fs-extra *)

Definition pathExists (p : path) : M bool :=
  emit (EvFs PathExists p) ;;
  t <- get_fs ;;
  ret (exists_at p t).

Definition readFile (p : path) : M string :=
  emit (EvFs ReadFile p) ;;
  t <- get_fs ;;
  match lookup p t with
  | Some (File c) => ret c
  | Some (Dir _) => throw (FsErr "EISDIR" p)
  | None => throw (FsErr "ENOENT" p)
  end.

(** The parent directory of [p] has to exist for a write. *)
Definition parent (p : path) : path := removelast p.

Definition write_at (op : FsOp) (p : path) (f : option string -> string)
  : M unit :=
  emit (EvFs op p) ;;
  t <- get_fs ;;
  match p with
  | [] => throw (FsErr "EISDIR" p)
  | _ :: _ =>
      match lookup p t with
      | Some (Dir _) => throw (FsErr "EISDIR" p)
      | Some (File c) =>
          match place p (File (f (Some c))) (Some t) with
          | Some t' => set_fs t'
          | None => throw (FsErr "ENOTDIR" p)
          end
      | None =>
          if is_dir (lookup (parent p) t) then
            match place p (File (f None)) (Some t) with
            | Some t' => set_fs t'
            | None => throw (FsErr "ENOTDIR" p)
            end
          else throw (FsErr "ENOENT" p)
      end
  end.

Definition writeFile (p : path) (data : string) : M unit :=
  write_at WriteFile p (fun _ => data).

Definition appendFile (p : path) (data : string) : M unit :=
  write_at AppendFile p
    (fun old => match old with Some c => c ++ data | None => data end).

Definition ensureDir (p : path) : M unit :=
  emit (EvFs EnsureDir p) ;;
  t <- get_fs ;;
  match lookup p t with
  | Some (Dir _) => ret tt
  | Some (File _) => throw (FsErr "EEXIST" p)
  | None =>
      match place p (Dir []) (Some t) with
      | Some t' => set_fs t'
      | None => throw (FsErr "ENOTDIR" p)
      end
  end.

Definition copy (src dst : path) : M unit :=
  emit (EvFs Copy dst) ;;
  t <- get_fs ;;
  match lookup src t with
  | None => throw (FsErr "ENOENT" src)
  | Some s =>
      if path_eqb src dst then
        throw (Err "Source and destination must not be the same.")
      else if is_dir (Some s) && is_prefix src dst then
        throw (Err "Cannot copy to a subdirectory of itself.")
      else
        match overlay s (lookup dst t) with
        | (ok, Some d) =>
            match place dst d (Some t) with
            | Some t' =>
                set_fs t' ;;
                if ok then ret tt
                else throw (Err "Cannot overwrite directory with non-directory")
            | None => throw (FsErr "ENOTDIR" dst)
            end
        | (_, None) => throw (FsErr "ENOENT" dst)
        end
  end.

Definition readdir (p : path) : M (list string) :=
  emit (EvFs Readdir p) ;;
  t <- get_fs ;;
  match lookup p t with
  | Some (Dir es) => ret (map fst es)
  | Some (File _) => throw (FsErr "ENOTDIR" p)
  | None => throw (FsErr "ENOENT" p)
  end.

(** [fs.statSync(p).isDirectory()] *)
Definition stat_isDirectory (p : path) : M bool :=
  emit (EvFs Stat p) ;;
  t <- get_fs ;;
  match lookup p t with
  | Some n => ret (is_dir (Some n))
  | None => throw (FsErr "ENOENT" p)
  end.

Section WithEnv.
Variable env : Env.

(** A relative name is resolved against the working directory. *)
Definition resolve (rel : string) : path := path_join (cwd env) [rel].

Definition remove (p : path) : M unit :=
  emit (EvFs Remove p) ;;
  if remove_fails env then throw (FsErr "EPERM" p)
  else t <- get_fs ;; set_fs (rm p t).

Definition readJson (p : path) : M Json :=
  emit (EvFs ReadJson p) ;;
  t <- get_fs ;;
  match lookup p t with
  | Some (File c) =>
      match parse env c with
      | Some j => ret j
      | None => throw (SyntaxErr ("Unexpected token in JSON: " ++ show_path p))
      end
  | Some (Dir _) => throw (FsErr "EISDIR" p)
  | None => throw (FsErr "ENOENT" p)
  end.

Definition writeJson (p : path) (j : Json) : M unit :=
  write_at WriteJson p (fun _ => stringify env j).

(** *** simple-git: [git.clone(url, dest, ["--depth", "1"])].
    git refuses a destination that exists and is not an empty directory;
    otherwise the outcome is the environment's. *)
Definition git_clone (url : string) (dest : path) : M unit :=
  emit (EvClone url dest) ;;
  t <- get_fs ;;
  match lookup dest t with
  | Some (File _) | Some (Dir (_ :: _)) =>
      throw (GitErr ("fatal: destination path '" ++ show_path dest ++
                     "' already exists and is not an empty directory."))
  | Some (Dir []) | None =>
      match remote env with
      | None => throw (GitErr "fatal: unable to access the remote repository")
      | Some tree =>
          match place dest (Dir tree) (Some t) with
          | Some t' => set_fs t'
          | None => throw (GitErr "fatal: could not create work tree dir")
          end
      end
  end.

(** *** prompts: a single-select prompt; the value of the picked choice,
    or [undefined] (here [None]) when the prompt is cancelled. *)
Definition prompts_select (choices : list string) : M (option string) :=
  emit (EvPrompt choices) ;;
  ret (match choice env with
       | Some i => nth_error choices i
       | None => None
       end).
End WithEnv.

(** *** ora and the console *)
Definition spinner (op : SpinnerOp) (text : string) : M unit :=
  emit (EvSpinner op text).
Definition console_warn (text : string) : M unit := emit (EvWarn text).
Definition console_log (text : string) : M unit := emit (EvLog text).

(** [error instanceof Error ? error.message : "Unknown error occurred"];
    every value thrown in this program is an [Error]. *)
Definition errorMessage (error : Error) : string := message error.

(** [items.filter(pred)] with a predicate that may throw. *)
Fixpoint filterM (pred : string -> M bool) (items : list string)
  : M (list string) :=
  match items with
  | [] => ret []
  | x :: rest =>
      b <- pred x ;;
      ys <- filterM pred rest ;;
      ret (if b then x :: ys else ys)
  end.

(* ================================================================= *)
(** ** Code shared by both entry points *)

(** Conversion of a value to text, as a template literal does it.  The
    text of a number is left to [num]. *)
Fixpoint js_to_string (num : Q -> string) (j : Json) : string :=
  match j with
  | JNull => "null"
  | JBool true => "true"
  | JBool false => "false"
  | JNum q => num q
  | JStr s => s
  | JArr items =>
      (fix join (l : list Json) : string :=
         match l with
         | [] => EmptyString
         | x :: r =>
             (match x with JNull => EmptyString | _ => js_to_string num x end) ++
             (match r with [] => EmptyString | _ :: _ => "," ++ join r end)
         end) items
  | JObj _ => "[object Object]"
  end.

(** [`${v}`] for a property read ([None] is [undefined]).  The digits of a
    number are not modelled: every number prints as [<number>]. *)
Definition template (v : option Json) : string :=
  match v with
  | None => "undefined"
  | Some j => js_to_string (fun _ => "<number>") j
  end.

(** [o.k] on a parsed JSON value: reading a property of [null] throws. *)
Definition get_prop (o : Json) (k : string) : M (option Json) :=
  match o with
  | JNull => throw (TypeErr ("Cannot read properties of null (reading '" ++ k ++ "')"))
  | JObj fields => ret (assoc k fields)
  | _ => ret None
  end.

(** [a !== b] on two property reads of two separately parsed documents:
    primitives compare by value, objects and arrays are never identical. *)
Definition strict_neq (a b : option Json) : bool :=
  match a, b with
  | None, None => false
  | Some JNull, Some JNull => false
  | Some (JBool x), Some (JBool y) => negb (Bool.eqb x y)
  | Some (JNum x), Some (JNum y) => negb (Qeq_bool x y)
  | Some (JStr x), Some (JStr y) => negb (x =? y)
  | _, _ => true
  end.

(** The three entries [init] pins. *)
Definition pinned : list (string * string) :=
  [("tailwindcss", "^3.4.0"); ("postcss", "^8.4.0"); ("autoprefixer", "^10.4.0")].

(** [if (!o.k) o.k = {};] on the fields of an object [o]. *)
Definition default_object (k : string) (fields : list (string * Json))
  : list (string * Json) :=
  if truthy (assoc k fields) then fields else set_assoc k (JObj []) fields.

(** The manifest update of [init] (index.ts 144-152, part_001 155-163):
<<
  if (!packageJson.dependencies) packageJson.dependencies = {};
  if (!packageJson.devDependencies) packageJson.devDependencies = {};
  packageJson.devDependencies = { ...packageJson.devDependencies,
    tailwindcss: "^3.4.0", postcss: "^8.4.0", autoprefixer: "^10.4.0" };
>>
    on the fields of a manifest that is a JSON object. *)
Definition update_fields (fields : list (string * Json)) : list (string * Json) :=
  let f := default_object "devDependencies"
             (default_object "dependencies" fields) in
  let dev := fold_left (fun acc kv => set_assoc (fst kv) (JStr (snd kv)) acc)
                       pinned (spread (assoc "devDependencies" f)) in
  set_assoc "devDependencies" (JObj dev) f.

(** The same on any parsed document: [null] has no properties, a primitive
    takes none (module code is strict), and the named properties put on an
    array are not serialised. *)
Definition update_manifest (packageJson : Json) : M Json :=
  match packageJson with
  | JObj fields => ret (JObj (update_fields fields))
  | JArr items => ret (JArr items)
  | JNull => throw (TypeErr "Cannot read properties of null (reading 'dependencies')")
  | _ => throw (TypeErr "Cannot create property 'dependencies'")
  end.

(** [if (component)]: [undefined] and the empty string are falsy. *)
Definition picked (component : option string) : option string :=
  match component with
  | Some s => if s =? EmptyString then None else Some s
  | None => None
  end.

(** The replacement of [modifyTailwindConfig] (part_001 59-66):
    [config.replace(/content:\s*\[[^]*?\]/, ...)], the first match only.
    White space is the ASCII part of [\s]. *)
Definition is_space (c : ascii) : bool :=
  let n := nat_of_ascii c in
  (n =? 32)%nat || ((9 <=? n)%nat && (n <=? 13)%nat).

Fixpoint skip_space (s : string) : string :=
  match s with
  | String c s' => if is_space c then skip_space s' else s
  | EmptyString => s
  end.

Fixpoint after_first (c : ascii) (s : string) : option string :=
  match s with
  | EmptyString => None
  | String d s' => if Ascii.eqb c d then Some s' else after_first c s'
  end.

Fixpoint drop (n : nat) (s : string) : string :=
  match n, s with
  | S n', String _ s' => drop n' s'
  | _, _ => s
  end.

Definition match_content (s : string) : option string :=
  if prefix "content:" s then
    match skip_space (drop 8 s) with
    | String c r => if Ascii.eqb c "[" then after_first "]" r else None
    | EmptyString => None
    end
  else None.

Definition content_replacement : string :=
  "content: [" ++ String (ascii_of_nat 34) "./src/**/*.{js,ts,jsx,tsx}" ++
  String (ascii_of_nat 34) "]".

Fixpoint replace_content (s : string) : string :=
  match match_content s with
  | Some rest => content_replacement ++ rest
  | None =>
      match s with
      | EmptyString => EmptyString
      | String c s' => String c (replace_content s')
      end
  end.

Definition REPO_URL : string := "https://github.com/irychen/solo-ui.git".

Definition next_steps (stylesheet : string) : M unit :=
  console_log (newline ++ "Next steps:") ;;
  console_log "1. Run 'npm install' or 'pnpm install' to install dependencies" ;;
  console_log ("2. Import '" ++ stylesheet ++ "' in your main application file") ;;
  console_log "3. Start using solo-ui components with 'solo-ui add <component>'".

(* ================================================================= *)
(** ** [src/packages/cli/src/index.ts] *)

Module PackagesCli.
Section Program.
Variable env : Env.

Definition TEMP_DIR : path := path_join (cwd env) [".solo-ui-temp"].

Definition checkProjectConfig : M unit :=
  hasPackageJson <- pathExists (resolve env "package.json") ;;
  if negb hasPackageJson then
    throw (Err "No package.json found. Please run this command in a Node.js project.")
  else ret tt.

Definition checkComponentDependencies (component : string) : M unit :=
  let componentPath := path_join TEMP_DIR ["components"; component] in
  let typesPath := path_join componentPath ["types.ts"] in
  present <- pathExists typesPath ;;
  if present then (_ <- readFile typesPath ;; ret tt) else ret tt.

Definition checkVersion : M unit :=
  try_catch
    (packageJson <- readJson env (path_join TEMP_DIR ["package.json"]) ;;
     localPackageJson <- readJson env (resolve env "package.json") ;;
     remoteVersion <- get_prop packageJson "version" ;;
     localVersion <- get_prop localPackageJson "version" ;;
     if strict_neq remoteVersion localVersion then
       console_warn ("Warning: Your local version (" ++ template localVersion ++
                     ") differs from the remote version (" ++
                     template remoteVersion ++ ")")
     else ret tt)
    (fun _ => console_warn "Unable to check versions").

Definition globalStylePath : path := path_join (cwd env) ["styles/globals.css"].

Definition mergeStyles (componentPath : path) : M unit :=
  let componentStylePath := path_join componentPath ["styles.css"] in
  present <- pathExists componentStylePath ;;
  if present then
    componentStyles <- readFile componentStylePath ;;
    globalStyles <- readFile globalStylePath ;;
    if negb (includes globalStyles componentStyles) then
      appendFile globalStylePath (newline ++ componentStyles)
    else ret tt
  else ret tt.

Definition cleanupTemp : M unit :=
  try_catch
    (present <- pathExists TEMP_DIR ;;
     if present then remove env TEMP_DIR else ret tt)
    (fun _ => console_warn "Failed to clean up temporary directory").

(** *** [add <component>] (lines 77-111), in its three stages *)

Definition componentPath (component : string) : path :=
  path_join TEMP_DIR ["components"; component].
Definition targetPath (component : string) : path :=
  path_join (cwd env) ["components"; component].

(** validate, fetch, version and dependency checks (84-91) *)
Definition add_prepare (component : string) : M unit :=
  checkProjectConfig ;;
  ensureDir TEMP_DIR ;;
  git_clone env REPO_URL TEMP_DIR ;;
  checkVersion ;;
  checkComponentDependencies component.

(** resolve and copy the component (93-100) *)
Definition add_install (component : string) : M unit :=
  found <- pathExists (componentPath component) ;;
  (if negb found then
     throw (Err ("Component " ++ component ++ " not found"))
   else ret tt) ;;
  copy (componentPath component) (targetPath component).

(** merge the style fragment and report (101-103) *)
Definition add_finish (component : string) : M unit :=
  mergeStyles (componentPath component) ;;
  spinner Succeed ("Successfully added " ++ component ++ " component").

Definition add_body (component : string) : M unit :=
  add_prepare component ;; add_install component ;; add_finish component.

Definition add_handler (error : Error) : M unit :=
  spinner Fail ("Failed to add component: " ++ errorMessage error).

Definition add (component : string) : M unit :=
  spinner Start "Fetching component..." ;;
  try_catch_finally (add_body component) add_handler cleanupTemp.

(** *** [init] (lines 113-174) *)

(** validate, create the directories, fetch, copy the templates (119-141) *)
Definition init_install : M unit :=
  checkProjectConfig ;;
  ensureDir (resolve env "styles") ;;
  ensureDir (resolve env "components") ;;
  git_clone env REPO_URL TEMP_DIR ;;
  checkVersion ;;
  copy (path_join TEMP_DIR ["packages/components/styles/globals.css"])
       (path_join (cwd env) ["styles/globals.css"]) ;;
  copy (path_join TEMP_DIR ["tailwind.config.js"])
       (path_join (cwd env) ["tailwind.config.js"]) ;;
  copy (path_join TEMP_DIR ["postcss.config.js"])
       (path_join (cwd env) ["postcss.config.js"]).

(** update the manifest and report (143-166) *)
Definition init_manifest : M unit :=
  packageJson <- readJson env (resolve env "package.json") ;;
  updated <- update_manifest packageJson ;;
  writeJson env (resolve env "package.json") updated ;;
  spinner Succeed "Successfully initialized solo-ui!" ;;
  next_steps "styles/globals.css".

Definition init_body : M unit := init_install ;; init_manifest.

Definition init_handler (error : Error) : M unit :=
  spinner Fail ("Failed to initialize: " ++ errorMessage error).

Definition init : M unit :=
  spinner Start "Initializing solo-ui..." ;;
  try_catch_finally init_body init_handler cleanupTemp.

(** *** [list] (lines 176-216) *)

Definition componentsDir : path := path_join TEMP_DIR ["packages/components"].

(** the names offered in the prompt (182-187) *)
Definition list_catalog : M (list string) :=
  ensureDir TEMP_DIR ;;
  git_clone env REPO_URL TEMP_DIR ;;
  readdir componentsDir.

(** what follows the selection (198-208) *)
Definition list_install (component : string) : M unit :=
  let componentPath := path_join TEMP_DIR ["packages/components"; component] in
  let targetPath := path_join (cwd env) ["components"; component] in
  copy componentPath targetPath ;;
  mergeStyles componentPath ;;
  spinner Succeed ("Successfully added " ++ component ++ " component").

Definition list_body : M unit :=
  components <- list_catalog ;;
  spinner Stop EmptyString ;;
  component <- prompts_select env components ;;
  match picked component with
  | Some c => list_install c
  | None => ret tt
  end.

Definition list_handler (error : Error) : M unit :=
  spinner Fail ("Failed to fetch components: " ++ errorMessage error).

Definition list : M unit :=
  spinner Start "Fetching components..." ;;
  try_catch_finally list_body list_handler cleanupTemp.
End Program.
End PackagesCli.

(* ================================================================= *)
(** ** [src/unnamed/part_001] *)

Module Part001.
Section Program.
Variable env : Env.

Definition TEMP_DIR : path := path_join (cwd env) [".solo-ui-temp"].

Definition checkProjectConfig : M unit :=
  hasPackageJson <- pathExists (resolve env "package.json") ;;
  if negb hasPackageJson then
    throw (Err "No package.json found. Please run this command in a Node.js project.")
  else ret tt.

Definition checkComponentDependencies (component : string) : M unit :=
  let componentPath := path_join TEMP_DIR ["components"; component] in
  let typesPath := path_join componentPath ["types.ts"] in
  present <- pathExists typesPath ;;
  if present then (_ <- readFile typesPath ;; ret tt) else ret tt.

Definition globalStylePath : path :=
  path_join (cwd env) ["src/styles/globals.css"].

Definition mergeStyles (componentPath : path) : M unit :=
  let componentStylePath := path_join componentPath ["styles.css"] in
  present <- pathExists componentStylePath ;;
  if present then
    componentStyles <- readFile componentStylePath ;;
    globalStyles <- readFile globalStylePath ;;
    if negb (includes globalStyles componentStyles) then
      appendFile globalStylePath (newline ++ componentStyles)
    else ret tt
  else ret tt.

Definition cleanupTemp : M unit :=
  try_catch
    (present <- pathExists TEMP_DIR ;;
     if present then remove env TEMP_DIR else ret tt)
    (fun _ => console_warn "Failed to clean up temporary directory").

Definition modifyTailwindConfig (configPath : path) : M unit :=
  config <- readFile configPath ;;
  let modifiedConfig := replace_content config in
  writeFile configPath modifiedConfig.

(** *** [add <component>] (lines 73-115), in its three stages *)

Definition componentPath (component : string) : path :=
  path_join TEMP_DIR ["packages/components"; component].
Definition targetPath (component : string) : path :=
  path_join (cwd env) ["src/components"; component].

(** validate, create the directories, fetch, dependency check (80-87) *)
Definition add_prepare (component : string) : M unit :=
  checkProjectConfig ;;
  ensureDir TEMP_DIR ;;
  ensureDir (path_join (cwd env) ["src"; "components"]) ;;
  git_clone env REPO_URL TEMP_DIR ;;
  checkComponentDependencies component.

(** resolve and copy the component (89-102) *)
Definition add_install (component : string) : M unit :=
  found <- pathExists (componentPath component) ;;
  (if negb found then
     throw (Err ("Component " ++ component ++ " not found in solo-ui components"))
   else ret tt) ;;
  copy (componentPath component) (targetPath component).

(** merge the style fragment and report (103-107) *)
Definition add_finish (component : string) : M unit :=
  mergeStyles (componentPath component) ;;
  spinner Succeed ("Successfully added " ++ component ++
                   " component to src/components/" ++ component).

Definition add_body (component : string) : M unit :=
  add_prepare component ;; add_install component ;; add_finish component.

Definition add_handler (error : Error) : M unit :=
  spinner Fail ("Failed to add component: " ++ errorMessage error).

Definition add (component : string) : M unit :=
  spinner Start "Fetching component..." ;;
  try_catch_finally (add_body component) add_handler cleanupTemp.

(** *** [init] (lines 117-185) *)

(** validate, create the directories, fetch, copy the templates (123-151) *)
Definition init_install : M unit :=
  checkProjectConfig ;;
  ensureDir (path_join (cwd env) ["src"; "styles"]) ;;
  ensureDir (path_join (cwd env) ["src"; "components"]) ;;
  git_clone env REPO_URL TEMP_DIR ;;
  copy (path_join TEMP_DIR ["packages/components/styles/globals.css"])
       (path_join (cwd env) ["src/styles/globals.css"]) ;;
  copy (path_join TEMP_DIR ["tailwind.config.js"])
       (path_join (cwd env) ["tailwind.config.js"]) ;;
  modifyTailwindConfig (path_join (cwd env) ["tailwind.config.js"]) ;;
  copy (path_join TEMP_DIR ["postcss.config.js"])
       (path_join (cwd env) ["postcss.config.js"]).

(** update the manifest and report (153-177) *)
Definition init_manifest : M unit :=
  packageJson <- readJson env (resolve env "package.json") ;;
  updated <- update_manifest packageJson ;;
  writeJson env (resolve env "package.json") updated ;;
  spinner Succeed "Successfully initialized solo-ui!" ;;
  next_steps "src/styles/globals.css".

Definition init_body : M unit := init_install ;; init_manifest.

Definition init_handler (error : Error) : M unit :=
  spinner Fail ("Failed to initialize: " ++ errorMessage error).

Definition init : M unit :=
  spinner Start "Initializing solo-ui..." ;;
  try_catch_finally init_body init_handler cleanupTemp.

(** *** [list] (lines 187-245) *)

Definition componentsDir : path := path_join TEMP_DIR ["packages/components"].

Definition reserved : list string := ["styles"; "package.json"; "node_modules"].

(** the predicate of [items.filter] (199-204) *)
Definition is_component (name : string) : M bool :=
  if startsWith name "." then ret false
  else if array_includes reserved name then ret false
  else stat_isDirectory (path_join componentsDir [name]).

(** the names offered in the prompt (193-204) *)
Definition list_catalog : M (list string) :=
  ensureDir TEMP_DIR ;;
  git_clone env REPO_URL TEMP_DIR ;;
  items <- readdir componentsDir ;;
  filterM is_component items.

(** what follows the selection (220-236) *)
Definition list_install (component : string) : M unit :=
  ensureDir (path_join (cwd env) ["src/components"]) ;;
  let componentPath := path_join TEMP_DIR ["packages/components"; component] in
  let targetPath := path_join (cwd env) ["src/components"; component] in
  copy componentPath targetPath ;;
  mergeStyles componentPath ;;
  spinner Succeed ("Successfully added " ++ component ++
                   " component to src/components/" ++ component).

Definition list_body : M unit :=
  components <- list_catalog ;;
  spinner Stop EmptyString ;;
  match components with
  | [] => spinner Info "No components available"
  | _ :: _ =>
      component <- prompts_select env components ;;
      match picked component with
      | Some c => list_install c
      | None => ret tt
      end
  end.

Definition list_handler (error : Error) : M unit :=
  spinner Fail ("Failed to fetch components: " ++ errorMessage error).

Definition list : M unit :=
  spinner Start "Fetching components..." ;;
  try_catch_finally list_body list_handler cleanupTemp.
End Program.
End Part001.

(* ================================================================= *)
(** ** Notions used in the statements *)

(** Two paths part ways: they differ at some segment both have. *)
Fixpoint diverge (p q : path) : bool :=
  match p, q with
  | a :: p', b :: q' => if a =? b then diverge p' q' else true
  | _, _ => false
  end.

Definition lookup_opt (q : path) (o : option Node) : option Node :=
  match o with
  | Some t => lookup q t
  | None => match q with [] => None | _ :: _ => None end
  end.

(** The state after one more event. *)
Definition logged (e : Event) (st : State) : State :=
  mkState (fs st) ((log st ++ [e])%list).

(** [mergeStyles] of either entry point, by the stylesheet it writes to. *)
Definition mergeStyles_at (globalStylePath componentPath : path) : M unit :=
  let componentStylePath := path_join componentPath ["styles.css"] in
  present <- pathExists componentStylePath ;;
  if present then
    componentStyles <- readFile componentStylePath ;;
    globalStyles <- readFile globalStylePath ;;
    if negb (includes globalStyles componentStyles) then
      appendFile globalStylePath (newline ++ componentStyles)
    else ret tt
  else ret tt.

(** The text [mergeStyles] leaves in the global stylesheet. *)
Definition merged (globalStyles componentStyles : string) : string :=
  if includes globalStyles componentStyles then globalStyles
  else globalStyles ++ newline ++ componentStyles.

(** Where a command stands when its [try] block is over: the failure
    message is on the spinner when the block threw. *)
Definition settled (prefix : string) (r : Completion unit * State) : State :=
  match r with
  | (Normal _, s) => s
  | (Throw e, s) => logged (EvSpinner Fail (prefix ++ errorMessage e)) s
  end.

(** What [cleanupTemp] leaves of a state. *)
Definition cleaned (env : Env) (st : State) : State :=
  let scratch := Part001.TEMP_DIR env in
  if exists_at scratch (fs st) then
    if remove_fails env then
      mkState (fs st)
              (log st ++ [EvFs PathExists scratch; EvFs Remove scratch;
                          EvWarn "Failed to clean up temporary directory"])%list
    else
      mkState (rm scratch (fs st))
              (log st ++ [EvFs PathExists scratch; EvFs Remove scratch])%list
  else mkState (fs st) (log st ++ [EvFs PathExists scratch])%list.

(** A command is guarded when it always completes normally, reports what
    its [try] block throws on the spinner, and then cleans up; [start] is
    the text the spinner starts with, [prefix] the one of the report. *)
Definition guarded (env : Env) (start prefix : string)
  (body command : M unit) : Prop :=
  forall st : State,
    completion command st = Normal tt /\
    (forall e s,
       body (logged (EvSpinner Start start) st) = (Throw e, s) ->
       exec command st
         = exec (Part001.cleanupTemp env)
                (logged (EvSpinner Fail (prefix ++ message e)) s) /\
       In (EvSpinner Fail (prefix ++ message e)) (log (exec command st))) /\
    (forall s,
       body (logged (EvSpinner Start start) st) = (Normal tt, s) ->
       exec command st = exec (Part001.cleanupTemp env) s).

(** What git says of a destination it will not clone into. *)
Definition not_empty_message (dest : path) : string :=
  "fatal: destination path '" ++ show_path dest ++
  "' already exists and is not an empty directory.".

(** The fetch of [add] and [list]: [ensureDir(TEMP_DIR)], then the clone. *)
Definition fetch (env : Env) : M unit :=
  ensureDir (Part001.TEMP_DIR env) ;;
  git_clone env REPO_URL (Part001.TEMP_DIR env).

(** The state in which a command reports the missing manifest. *)
Definition not_a_project (env : Env) (start prefix : string) (st : State) : State :=
  mkState (fs st)
    (log st ++
     [EvSpinner Start start;
      EvFs PathExists (resolve env "package.json");
      EvSpinner Fail (prefix ++
        "No package.json found. Please run this command in a Node.js project.")])%list.

(** Two trees agree on the paths in [P]. *)
Definition same_on (P : path -> Prop) (t t' : Node) : Prop :=
  forall q, P q -> lookup q t' = lookup q t.

(** A computation leaves the paths in [P] as they are, however it ends. *)
Definition keeps {A : Type} (P : path -> Prop) (m : M A) : Prop :=
  forall st, same_on P (fs st) (fs (snd (m st))).

(** The paths strictly below [dir], and those at or below it. *)
Definition below (dir : path) (q : path) : Prop :=
  exists x rest, q = (dir ++ x :: rest)%list.
Definition within (dir : path) (q : path) : Prop :=
  exists rest, q = (dir ++ rest)%list.

(** A computation adds to the log only events that satisfy [P], and a
    value it returns satisfies [Q]. *)
Definition traces {A : Type} (P : Event -> Prop) (Q : A -> Prop) (m : M A) : Prop :=
  forall st,
    (exists evs, log (snd (m st)) = (log st ++ evs)%list /\ Forall P evs) /\
    (forall a, fst (m st) = Normal a -> Q a).

(** A name [list] may offer: not hidden and not one of the reserved names. *)
Definition component_name (name : string) : Prop :=
  startsWith name "." = false /\
  name <> "styles" /\ name <> "package.json" /\ name <> "node_modules".

(** An event that is no prompt, or a prompt that offers component names only. *)
Definition offers_components (e : Event) : Prop :=
  match e with
  | EvPrompt choices => Forall component_name choices
  | _ => True
  end.

(** *** Sample projects and catalogs *)
Module Sample.
Definition catalog : list (string * Node) :=
  [(".git", Dir [("HEAD", File "ref: refs/heads/main")]);
   ("package.json", File "{ remote manifest }");
   ("tailwind.config.js", File "module.exports = { content: ['./x'], theme: {} }");
   ("postcss.config.js", File "module.exports = { plugins: {} }");
   ("packages", Dir [("components", Dir [
      ("styles", Dir [("globals.css", File "@tailwind base;")]);
      ("package.json", File "{}");
      ("node_modules", Dir []);
      (".turbo", Dir []);
      ("button", Dir [("index.tsx", File "export const Button = 1");
                      ("styles.css", File (".btn{}" ++ newline))]);
      ("card", Dir [("index.tsx", File "export const Card = 1")])])])].

Definition manifest : Json := JObj [("name", JStr "app"); ("version", JStr "1.0.0")].

Definition env : Env :=
  mkEnv ["home"; "app"] (Some catalog) (Some 0) false
        (fun _ => Some manifest) (fun _ => "{ updated manifest }").

(** a remote whose catalog directory holds no entry at all *)
Definition env_empty : Env :=
  mkEnv ["home"; "app"]
        (Some [("packages", Dir [("components", Dir [])])]) (Some 0%nat) false
        (fun _ => Some manifest) (fun _ => "{ updated manifest }").

(** the same, where the OS refuses to remove the scratch directory *)
Definition env_locked : Env :=
  mkEnv ["home"; "app"] (Some catalog) (Some 0) true
        (fun _ => Some manifest) (fun _ => "{ updated manifest }").

Definition project (entries : list (string * Node)) : State :=
  mkState (Dir [("home", Dir [("app", Dir entries)])]) [].

(** a project that has only its manifest *)
Definition bare : State := project [("package.json", File "{ manifest }")].

(** a directory that is not a project *)
Definition no_manifest : State := project [("README.md", File "hello")].

(** a project after [init], for either layout *)
Definition initialised : State :=
  project [("package.json", File "{ manifest }");
           ("styles", Dir [("globals.css", File ".btn{}")]);
           ("components", Dir []);
           ("src", Dir [("styles", Dir [("globals.css", File ".btn{}")]);
                        ("components", Dir [])])].

(** a scratch directory left behind by a killed run *)
Definition stale : State :=
  project [("package.json", File "{ manifest }");
           (".solo-ui-temp", Dir [("junk", File "left over")])].

(** an initialised project in the middle of a command, the clone done *)
Definition fetched : State :=
  project [("package.json", File "{ manifest }");
           ("styles", Dir [("globals.css", File ".btn{}")]);
           ("components", Dir []);
           ("src", Dir [("styles", Dir [("globals.css", File ".btn{}")]);
                        ("components", Dir [])]);
           (".solo-ui-temp", Dir catalog)].

Definition button_path : path :=
  ["home"; "app"; ".solo-ui-temp"; "packages"; "components"; "button"].

Definition no_manifest_stale : State :=
  project [("README.md", File "hello");
           (".solo-ui-temp", Dir [("junk", File "left over")])].
End Sample.

(* ================================================================= *)
(** ** Notions used in the further properties *)

(** A computation that leaves the file tree exactly as it is. *)
Definition readonly {A : Type} (m : M A) : Prop :=
  forall st, fs (snd (m st)) = fs st.

(** A name of one segment: what [readdir] returns, and what a component is
    called. *)
Definition plain (name : string) : Prop :=
  split_on "/" name = [name] /\
  name <> EmptyString /\ name <> "." /\ name <> "..".

(** The names of the fields of an object, in their order. *)
Definition keys (fields : list (string * Json)) : list string := map fst fields.

(** The name [k] when no field has it. *)
Definition missing (k : string) (fields : list (string * Json)) : list string :=
  match assoc k fields with
  | Some _ => []
  | None => [k]
  end.

(** What the filter of [list] (part_001 199-204) keeps, as a test on the
    file tree. *)
Definition offered (env : Env) (t : Node) (name : string) : bool :=
  negb (startsWith name ".") &&
  negb (array_includes Part001.reserved name) &&
  is_dir (lookup (path_join (Part001.componentsDir env) [name]) t).

(** Two trees that differ at most in the scratch directory (the working
    directory being a directory). *)
Definition upto_scratch (env : Env) (t t' : Node) : Prop :=
  is_dir (lookup (cwd env) t) = true ->
  is_dir (lookup (cwd env) t') = true /\
  rm (Part001.TEMP_DIR env) t' = rm (Part001.TEMP_DIR env) t.

(** A computation that writes nowhere but in the scratch directory. *)
Definition scratch_only (env : Env) {A : Type} (m : M A) : Prop :=
  forall st, upto_scratch env (fs st) (fs (snd (m st))).

(** A computation that throws, whatever the state. *)
Definition always_throws {A : Type} (m : M A) : Prop :=
  forall st, exists e, fst (m st) = Throw e.

(** What [match_content] asks of the text behind ["content:"]: white space,
    an opening bracket, and a closing bracket somewhere after it. *)
Definition bracketed (w : string) : option string :=
  match skip_space w with
  | String c r => if Ascii.eqb c "[" then after_first "]" r else None
  | EmptyString => None
  end.

(** A text that opens with [c] and holds a closing bracket. *)
Definition closes (X : string) : Prop :=
  (exists r, X = String "c" r) /\ after_first "]" X <> None.

(** A tree in which no directory holds a name twice. *)
Inductive wf : Node -> Prop :=
| wf_file (content : string) : wf (File content)
| wf_dir (entries : list (string * Node)) :
    NoDup (map fst entries) ->
    (forall k child, In (k, child) entries -> wf child) ->
    wf (Dir entries).

(** The entry-by-entry loop of [overlay] on a directory. *)
Fixpoint overlay_entries (es ds : list (string * Node))
  : bool * list (string * Node) :=
  match es with
  | [] => (true, ds)
  | (k, child) :: es' =>
      match overlay child (assoc k ds) with
      | (true, Some c) => overlay_entries es' (set_assoc k c ds)
      | (true, None) => overlay_entries es' ds
      | (false, Some c) => (false, set_assoc k c ds)
      | (false, None) => (false, ds)
      end
  end.

Module More.
(** a remote whose manifest carries another version than the project's *)
Definition parse_by_text (text : string) : option Json :=
  if text =? "{ remote manifest }" then
    Some (JObj [("name", JStr "solo-ui"); ("version", JStr "2.0.0")])
  else if text =? "{ manifest }" then
    Some (JObj [("name", JStr "app"); ("version", JStr "1.0.0")])
  else None.

Definition env : Env :=
  mkEnv ["home"; "app"] (Some Sample.catalog) (Some 0%nat) false
        parse_by_text (fun _ => "{ updated manifest }").

(** no network *)
Definition env_offline : Env :=
  mkEnv ["home"; "app"] None (Some 0%nat) false
        parse_by_text (fun _ => "{ updated manifest }").

(** the user leaves the prompt without a choice *)
Definition env_cancel : Env :=
  mkEnv ["home"; "app"] (Some Sample.catalog) None false
        parse_by_text (fun _ => "{ updated manifest }").
End More.

(* ================================================================= *)
(** * Properties *)

Unset Implicit Arguments.

(** ** Substrings *)

Lemma prefix_app (t b : string) : prefix t (t ++ b) = true.
Proof.
  induction t as [|c t IH]; simpl.
  - destruct b; reflexivity.
  - destruct (ascii_dec c c) as [_|n]; [exact IH | contradiction].
Qed.

Lemma prefix_split (t s : string) :
  prefix t s = true -> exists b, s = t ++ b.
Proof.
  revert s; induction t as [|c t IH]; intros s H.
  - exists s; reflexivity.
  - destruct s as [|d s]; simpl in H; [discriminate|].
    destruct (ascii_dec c d) as [->|]; [|discriminate].
    destruct (IH _ H) as [b ->]. exists b; reflexivity.
Qed.

Lemma includes_prefix (s t : string) : prefix t s = true -> includes s t = true.
Proof. intros H. destruct s; cbn [includes]; rewrite H; reflexivity. Qed.

Lemma includes_intro (a t b : string) : includes (a ++ t ++ b) t = true.
Proof.
  induction a as [|c a IH].
  - change (includes (t ++ b) t = true). apply includes_prefix, prefix_app.
  - simpl. rewrite IH. apply orb_true_r.
Qed.

Lemma includes_split (s t : string) :
  includes s t = true -> exists a b, s = a ++ t ++ b.
Proof.
  induction s as [|c s IH]; cbn [includes]; intros H.
  - rewrite orb_false_r in H. destruct (prefix_split _ _ H) as [b ->].
    exists EmptyString, b; reflexivity.
  - apply orb_true_iff in H as [H|H].
    + destruct (prefix_split _ _ H) as [b E]. exists EmptyString, b; exact E.
    + destruct (IH H) as (a & b & ->). exists (String c a), b; reflexivity.
Qed.

Lemma append_empty_r (s : string) : s ++ EmptyString = s.
Proof. induction s; simpl; congruence. Qed.

Lemma includes_appended (g x f : string) : includes (g ++ x ++ f) f = true.
Proof.
  replace (g ++ x ++ f) with ((g ++ x) ++ f ++ EmptyString).
  - apply includes_intro.
  - rewrite append_empty_r.
    induction g; simpl; congruence.
Qed.

(** ** Association lists *)

Section AssocFacts.
Context {A : Type}.
Implicit Types (l : list (string * A)) (k : string).

Lemma assoc_set_eq k v l : assoc k (set_assoc k v l) = Some v.
Proof.
  induction l as [|[k' v'] l IH]; simpl.
  - now rewrite String.eqb_refl.
  - destruct (k =? k') eqn:E; simpl; rewrite ?E, ?String.eqb_refl; auto.
Qed.

Lemma assoc_set_neq k k' v l :
  k <> k' -> assoc k' (set_assoc k v l) = assoc k' l.
Proof.
  intros N. induction l as [|[k0 v0] l IH]; simpl.
  - destruct (k' =? k) eqn:E; [apply String.eqb_eq in E; congruence | reflexivity].
  - destruct (k =? k0) eqn:E; simpl.
    + apply String.eqb_eq in E; subst k0.
      destruct (k' =? k) eqn:E'; [apply String.eqb_eq in E'; congruence | reflexivity].
    + destruct (k' =? k0); auto.
Qed.

Lemma assoc_del_eq k l : assoc k (del_assoc k l) = None.
Proof.
  induction l as [|[k0 v0] l IH]; simpl; auto.
  destruct (k =? k0) eqn:E; simpl; rewrite ?E; auto.
Qed.

Lemma assoc_del_neq k k' l :
  k <> k' -> assoc k' (del_assoc k l) = assoc k' l.
Proof.
  intros N. induction l as [|[k0 v0] l IH]; simpl; auto.
  destruct (k =? k0) eqn:E; simpl.
  - apply String.eqb_eq in E; subst k0.
    destruct (k' =? k) eqn:E'; [apply String.eqb_eq in E'; congruence | exact IH].
  - destruct (k' =? k0); auto.
Qed.
End AssocFacts.

(** ** The file tree *)

Lemma lookup_app (p q : path) (t : Node) :
  lookup (p ++ q)%list t =
  match lookup p t with Some n => lookup q n | None => None end.
Proof.
  revert t; induction p as [|s p IH]; intros t; simpl; auto.
  destruct t as [c|es]; auto. destruct (assoc s es); auto.
Qed.

Lemma diverge_app (c p q : path) :
  diverge (c ++ p)%list (c ++ q)%list = diverge p q.
Proof. induction c as [|s c IH]; simpl; rewrite ?String.eqb_refl; auto. Qed.

Lemma place_lookup (p : path) (x : Node) (o : option Node) (t' : Node) :
  place p x o = Some t' -> lookup p t' = Some x.
Proof.
  revert o t'; induction p as [|s p IH]; intros o t' H; simpl in *.
  - congruence.
  - destruct o as [[c|es]|]; try discriminate.
    + destruct (place p x (assoc s es)) as [c|] eqn:E; [|discriminate].
      injection H as <-. simpl. rewrite assoc_set_eq. eauto.
    + destruct (place p x None) as [c|] eqn:E; [|discriminate].
      injection H as <-. simpl. rewrite String.eqb_refl. eauto.
Qed.

Lemma place_diverge (p q : path) (x : Node) (o : option Node) (t' : Node) :
  place p x o = Some t' -> diverge p q = true ->
  lookup q t' = lookup_opt q o.
Proof.
  revert q o t'; induction p as [|s p IH]; intros q o t' H D.
  - discriminate.
  - destruct q as [|b q]; [discriminate|]. simpl in D, H.
    destruct o as [[c|es]|]; try discriminate.
    + destruct (place p x (assoc s es)) as [c|] eqn:E; [|discriminate].
      injection H as <-. simpl.
      destruct (s =? b) eqn:Esb.
      * apply String.eqb_eq in Esb; subst b. rewrite assoc_set_eq.
        rewrite (IH _ _ _ E D). destruct (assoc s es); simpl; auto.
        destruct q; auto.
      * rewrite assoc_set_neq; auto. intros ->. now rewrite String.eqb_refl in Esb.
    + destruct (place p x None) as [c|] eqn:E; [|discriminate].
      injection H as <-. simpl.
      destruct (s =? b) eqn:Esb.
      * apply String.eqb_eq in Esb; subst b. rewrite String.eqb_refl.
        rewrite (IH _ _ _ E D). destruct q; auto.
      * rewrite String.eqb_sym, Esb. reflexivity.
Qed.

Lemma place_exists (p : path) (x : Node) (t : Node) :
  exists_at p t = true -> exists t', place p x (Some t) = Some t'.
Proof.
  unfold exists_at. revert t; induction p as [|s p IH]; intros t H; simpl in *.
  - eauto.
  - destruct t as [c|es]; [discriminate|].
    destruct (assoc s es) as [c|]; [|discriminate].
    destruct (IH _ H) as [t' ->]. eauto.
Qed.

(** A new entry can be put directly below an existing directory. *)
Lemma place_below (c : path) (s : string) (x : Node) (t : Node) :
  is_dir (lookup c t) = true ->
  exists t', place (c ++ [s])%list x (Some t) = Some t'.
Proof.
  revert t; induction c as [|a c IH]; intros t H; simpl in *.
  - destruct t as [f|es]; [discriminate|]. eauto.
  - destruct t as [f|es]; [discriminate|].
    destruct (assoc a es) as [n|]; [|discriminate].
    destruct (IH _ H) as [t' ->]. eauto.
Qed.

Lemma rm_diverge (p q : path) (t : Node) :
  diverge p q = true -> lookup q (rm p t) = lookup q t.
Proof.
  revert q t; induction p as [|s p IH]; intros q t D; [discriminate|].
  destruct q as [|b q]; [discriminate|]. simpl in D.
  destruct t as [c|es]; simpl; auto.
  destruct (s =? b) eqn:Esb.
  - apply String.eqb_eq in Esb; subst b.
    destruct p as [|s' p]; [discriminate|].
    destruct (assoc s es) as [c|] eqn:Ea; simpl; rewrite ?Ea; auto.
    rewrite assoc_set_eq. apply IH; auto.
  - assert (s <> b) by (intros ->; now rewrite String.eqb_refl in Esb).
    destruct p as [|s' p]; simpl.
    + rewrite assoc_del_neq; auto.
    + destruct (assoc s es) as [c|] eqn:Ea; simpl; auto.
      rewrite assoc_set_neq; auto.
Qed.

Lemma rm_lookup_self (p : path) (t : Node) :
  p <> [] -> lookup p (rm p t) = None.
Proof.
  revert t; induction p as [|s p IH]; intros t N; [congruence|].
  destruct t as [c|es]; simpl; auto.
  destruct p as [|s' p]; simpl.
  - now rewrite assoc_del_eq.
  - destruct (assoc s es) as [c|] eqn:Ea; simpl; rewrite ?Ea; auto.
    rewrite assoc_set_eq. apply IH. discriminate.
Qed.

Lemma rm_keeps_absent (p q : path) (t : Node) :
  lookup q t = None -> lookup q (rm p t) = None.
Proof.
  revert q t; induction p as [|s p IH]; intros q t H; simpl; auto.
  destruct t as [c|es]; auto.
  destruct q as [|b q]; [discriminate|]. simpl in H.
  destruct p as [|s' p].
  - simpl. destruct (String.eqb_spec s b) as [->|N].
    + now rewrite assoc_del_eq.
    + rewrite assoc_del_neq; auto.
  - destruct (assoc s es) as [c|] eqn:Ea; [|simpl; exact H].
    simpl. destruct (String.eqb_spec s b) as [->|N].
    + rewrite assoc_set_eq. rewrite Ea in H. apply IH; auto.
    + rewrite assoc_set_neq; auto.
Qed.

(** ** The fixed paths of the program *)

Ltac path_norm :=
  unfold resolve, path_join; simpl;
  rewrite ?rev_involutive, <- ?app_assoc; simpl; try reflexivity.

Lemma styles_css_path (p : path) :
  path_join p ["styles.css"] = (p ++ ["styles.css"])%list.
Proof. path_norm. Qed.

Lemma manifest_path (env : Env) :
  resolve env "package.json" = (cwd env ++ ["package.json"])%list.
Proof. path_norm. Qed.

Lemma temp_path (env : Env) :
  Part001.TEMP_DIR env = (cwd env ++ [".solo-ui-temp"])%list.
Proof. unfold Part001.TEMP_DIR. path_norm. Qed.

Lemma temp_path_same (env : Env) :
  PackagesCli.TEMP_DIR env = Part001.TEMP_DIR env.
Proof. reflexivity. Qed.

Lemma global_path_v1 (env : Env) :
  PackagesCli.globalStylePath env = (cwd env ++ ["styles"; "globals.css"])%list.
Proof. unfold PackagesCli.globalStylePath. path_norm. Qed.

Lemma global_path_v2 (env : Env) :
  Part001.globalStylePath env = (cwd env ++ ["src"; "styles"; "globals.css"])%list.
Proof. unfold Part001.globalStylePath. path_norm. Qed.

Lemma components_path_v2 (env : Env) :
  path_join (cwd env) ["src"; "components"] = (cwd env ++ ["src"; "components"])%list.
Proof. path_norm. Qed.

Lemma mergeStyles_v1 (env : Env) :
  PackagesCli.mergeStyles env = mergeStyles_at (PackagesCli.globalStylePath env).
Proof. reflexivity. Qed.

Lemma mergeStyles_v2 (env : Env) :
  Part001.mergeStyles env = mergeStyles_at (Part001.globalStylePath env).
Proof. reflexivity. Qed.

Lemma cleanupTemp_same (env : Env) :
  PackagesCli.cleanupTemp env = Part001.cleanupTemp env.
Proof. reflexivity. Qed.

(** ** How the collaborators run *)

Lemma run_bind {A B : Type} (m : M A) (k : A -> M B) (st : State) :
  bind m k st =
  match m st with
  | (Normal a, st') => k a st'
  | (Throw e, st') => (Throw e, st')
  end.
Proof. reflexivity. Qed.

Lemma run_pathExists (p : path) (st : State) :
  pathExists p st = (Normal (exists_at p (fs st)), logged (EvFs PathExists p) st).
Proof. reflexivity. Qed.

Lemma run_readFile (p : path) (st : State) :
  readFile p st =
  (match lookup p (fs st) with
   | Some (File c) => Normal c
   | Some (Dir _) => Throw (FsErr "EISDIR" p)
   | None => Throw (FsErr "ENOENT" p)
   end, logged (EvFs ReadFile p) st).
Proof.
  unfold readFile, bind, emit, get_fs, logged; simpl.
  destruct (lookup p (fs st)) as [[c|es]|]; reflexivity.
Qed.

(** Reading never changes the tree. *)
Lemma readFile_fs (p : path) (st : State) : fs (exec (readFile p) st) = fs st.
Proof. unfold exec. rewrite run_readFile. reflexivity. Qed.

Lemma run_appendFile_file (p : path) (data c : string) (st : State) (t' : Node) :
  p <> [] ->
  lookup p (fs st) = Some (File c) ->
  place p (File (c ++ data)) (Some (fs st)) = Some t' ->
  appendFile p data st = (Normal tt, mkState t' (log st ++ [EvFs AppendFile p])%list).
Proof.
  intros N L P. unfold appendFile, write_at, bind, emit, get_fs, set_fs; simpl.
  destruct p as [|s p]; [congruence|]. rewrite L, P. reflexivity.
Qed.

(** Overwriting a regular file leaves every other regular file as it is. *)
Lemma place_file_frame (p q : path) (a a' b : string) (t t' : Node) :
  lookup p t = Some (File a) ->
  place p (File a') (Some t) = Some t' ->
  lookup q t = Some (File b) ->
  q <> p ->
  lookup q t' = Some (File b).
Proof.
  revert q t t'; induction p as [|s p IH]; intros q t t' Lp P Lq N.
  - simpl in Lp. injection Lp as ->. destruct q; [congruence | discriminate].
  - destruct t as [c|es]; [discriminate|]. simpl in Lp, P.
    destruct (assoc s es) as [c|] eqn:Ea; [|discriminate].
    destruct (place p (File a') (Some c)) as [c'|] eqn:Ep; [|discriminate].
    injection P as <-.
    destruct q as [|k q]; [discriminate|]. simpl in Lq |- *.
    destruct (String.eqb_spec s k) as [<-|Nk].
    + rewrite assoc_set_eq. rewrite Ea in Lq.
      eapply IH; eauto. congruence.
    + rewrite assoc_set_neq; auto.
Qed.

(** ** The style merger *)

Lemma includes_merged (g f : string) : includes (merged g f) f = true.
Proof.
  unfold merged. destruct (includes g f) eqn:E; [exact E|].
  apply includes_appended.
Qed.

Lemma merged_fixed (g f : string) : merged (merged g f) f = merged g f.
Proof. unfold merged at 1. now rewrite includes_merged. Qed.

Section MergeAt.
Variables (g cp : path) (f : string).
Hypothesis g_not_root : g <> [].
Hypothesis fragment_elsewhere : path_join cp ["styles.css"] <> g.

Lemma mergeStyles_at_result (st : State) (gs : string) :
  lookup (path_join cp ["styles.css"]) (fs st) = Some (File f) ->
  lookup g (fs st) = Some (File gs) ->
  exists st',
    mergeStyles_at g cp st = (Normal tt, st') /\
    lookup g (fs st') = Some (File (merged gs f)) /\
    lookup (path_join cp ["styles.css"]) (fs st') = Some (File f) /\
    (includes gs f = true -> fs st' = fs st).
Proof.
  intros Lf Lg.
  unfold mergeStyles_at.
  rewrite run_bind, run_pathExists. unfold exists_at. simpl fs. rewrite Lf.
  rewrite run_bind, run_readFile. simpl fs. rewrite Lf.
  rewrite run_bind, run_readFile. simpl fs. rewrite Lg.
  unfold merged. destruct (includes gs f) eqn:E; simpl.
  - eexists; split; [reflexivity|]. simpl. auto.
  - destruct (@place_exists g (File (gs ++ newline ++ f)) (fs st)) as [t' Ht'].
    { unfold exists_at. now rewrite Lg. }
    erewrite run_appendFile_file; simpl; eauto.
    eexists; split; [reflexivity|]. simpl. repeat split.
    + eapply place_lookup; eauto.
    + eapply place_file_frame; eauto.
    + discriminate.
Qed.

Lemma mergeStyles_at_run (st : State) (gs : string) :
  lookup (path_join cp ["styles.css"]) (fs st) = Some (File f) ->
  lookup g (fs st) = Some (File gs) ->
  completion (mergeStyles_at g cp) st = Normal tt /\
  lookup g (fs (exec (mergeStyles_at g cp) st)) = Some (File (merged gs f)) /\
  lookup (path_join cp ["styles.css"]) (fs (exec (mergeStyles_at g cp) st))
    = Some (File f) /\
  (includes gs f = true -> fs (exec (mergeStyles_at g cp) st) = fs st).
Proof.
  intros Lf Lg.
  destruct (mergeStyles_at_result st gs Lf Lg) as (st' & E & H).
  unfold completion, exec. rewrite E. simpl. auto.
Qed.

Lemma mergeStyles_at_twice (st : State) (gs : string) :
  lookup (path_join cp ["styles.css"]) (fs st) = Some (File f) ->
  lookup g (fs st) = Some (File gs) ->
  fs (exec (mergeStyles_at g cp) (exec (mergeStyles_at g cp) st))
  = fs (exec (mergeStyles_at g cp) st).
Proof.
  intros Lf Lg.
  destruct (mergeStyles_at_run st gs Lf Lg) as (_ & Lg1 & Lf1 & _).
  destruct (mergeStyles_at_run _ _ Lf1 Lg1) as (_ & _ & _ & Same).
  apply Same, includes_merged.
Qed.
End MergeAt.

Lemma fragment_not_global (cp c : path) (dir : list string) :
  path_join cp ["styles.css"] <> (c ++ dir ++ ["globals.css"])%list.
Proof.
  rewrite styles_css_path, app_assoc. intros E.
  apply app_inj_tail in E as [_ E]. discriminate.
Qed.

(** C1 (as amended).  [mergeStyles] of either entry point, run where the
    component has a style fragment and the global stylesheet is a file,
    completes normally and leaves in the stylesheet its old text when that
    already includes the fragment, and otherwise the old text, a newline and
    the fragment; the result includes the fragment, nothing changes when it
    was already included, and a second merge of the same fragment changes
    nothing. *)
Theorem mergeStyles_idempotent
  (env : Env) (componentPath : path) (st : State) (componentStyles : string) :
  lookup (path_join componentPath ["styles.css"]) (fs st)
    = Some (File componentStyles) ->
  (forall globalStyles,
     lookup (PackagesCli.globalStylePath env) (fs st) = Some (File globalStyles) ->
     let once := PackagesCli.mergeStyles env componentPath in
     completion once st = Normal tt /\
     lookup (PackagesCli.globalStylePath env) (fs (exec once st))
       = Some (File (if includes globalStyles componentStyles then globalStyles
                     else globalStyles ++ newline ++ componentStyles)) /\
     (includes globalStyles componentStyles = true -> fs (exec once st) = fs st) /\
     includes (merged globalStyles componentStyles) componentStyles = true /\
     fs (exec once (exec once st)) = fs (exec once st))
  /\
  (forall globalStyles,
     lookup (Part001.globalStylePath env) (fs st) = Some (File globalStyles) ->
     let once := Part001.mergeStyles env componentPath in
     completion once st = Normal tt /\
     lookup (Part001.globalStylePath env) (fs (exec once st))
       = Some (File (if includes globalStyles componentStyles then globalStyles
                     else globalStyles ++ newline ++ componentStyles)) /\
     (includes globalStyles componentStyles = true -> fs (exec once st) = fs st) /\
     includes (merged globalStyles componentStyles) componentStyles = true /\
     fs (exec once (exec once st)) = fs (exec once st)).
Proof.
  intros Lf.
  assert (N1 : PackagesCli.globalStylePath env <> []).
  { rewrite global_path_v1. intros E. apply app_eq_nil in E as [_ E]. discriminate. }
  assert (N2 : Part001.globalStylePath env <> []).
  { rewrite global_path_v2. intros E. apply app_eq_nil in E as [_ E]. discriminate. }
  assert (D1 : path_join componentPath ["styles.css"] <> PackagesCli.globalStylePath env).
  { rewrite global_path_v1. apply (fragment_not_global componentPath (cwd env) ["styles"]). }
  assert (D2 : path_join componentPath ["styles.css"] <> Part001.globalStylePath env).
  { rewrite global_path_v2. apply (fragment_not_global componentPath (cwd env) ["src"; "styles"]). }
  split; intros gs Lg; cbv zeta.
  - rewrite mergeStyles_v1.
    destruct (@mergeStyles_at_run _ _ _ N1 D1 st _ Lf Lg) as (C & G & _ & S).
    repeat split; auto using includes_merged.
    eapply mergeStyles_at_twice; eauto.
  - rewrite mergeStyles_v2.
    destruct (@mergeStyles_at_run _ _ _ N2 D2 st _ Lf Lg) as (C & G & _ & S).
    repeat split; auto using includes_merged.
    eapply mergeStyles_at_twice; eauto.
Qed.

Lemma mergeStyles_idempotent_witness :
  lookup ["home"; "app"; "src"; "styles"; "globals.css"]
    (fs (exec (Part001.mergeStyles Sample.env Sample.button_path) Sample.fetched))
  = Some (File (".btn{}" ++ newline ++ ".btn{}" ++ newline)).
Proof.
  destruct (@mergeStyles_idempotent Sample.env Sample.button_path Sample.fetched
              _ eq_refl) as [_ H].
  destruct (H _ eq_refl) as (_ & G & _). exact G.
Defined.

(** C1, as the specification words it, fails: a stylesheet that ends with the
    fragment less its final newline does not include the fragment, so the
    merge appends it, and the text then holds the fragment twice. *)
Lemma merge_twice_two_occurrences :
  let once := Part001.mergeStyles Sample.env Sample.button_path in
  exists componentStyles globalStyles,
    lookup (path_join Sample.button_path ["styles.css"]) (fs Sample.fetched)
      = Some (File componentStyles) /\
    lookup (Part001.globalStylePath Sample.env)
           (fs (exec once (exec once Sample.fetched)))
      = Some (File globalStyles) /\
    occurrences componentStyles globalStyles = 2.
Proof.
  eexists. eexists. split; [|split]; vm_compute; reflexivity.
Qed.

(** ** The command boundary *)

Lemma run_cleanupTemp (env : Env) (st : State) :
  Part001.cleanupTemp env st = (Normal tt, cleaned env st).
Proof.
  unfold Part001.cleanupTemp, try_catch, cleaned.
  rewrite run_bind, run_pathExists.
  destruct (exists_at (Part001.TEMP_DIR env) (fs st)); [|reflexivity].
  unfold remove. destruct (remove_fails env);
    unfold console_warn, bind, get_fs, set_fs, throw, emit, logged; simpl;
    rewrite <- ?app_assoc; reflexivity.
Qed.

Lemma temp_not_root (env : Env) : Part001.TEMP_DIR env <> [].
Proof. rewrite temp_path. intros E. apply app_eq_nil in E as [_ E]. discriminate. Qed.

Lemma cleaned_no_scratch (env : Env) (st : State) :
  remove_fails env = false ->
  lookup (Part001.TEMP_DIR env) (fs (cleaned env st)) = None.
Proof.
  intros R. unfold cleaned, exists_at. rewrite R.
  destruct (lookup (Part001.TEMP_DIR env) (fs st)) eqn:L; simpl; auto.
  apply rm_lookup_self, temp_not_root.
Qed.

(** [try { body } catch (error) { spinner.fail(prefix + message) }
     finally { await cleanupTemp() }] always completes normally. *)
Lemma run_guarded (env : Env) (prefix : string) (body : M unit) (st : State) :
  try_catch_finally body
    (fun error => spinner Fail (prefix ++ errorMessage error))
    (Part001.cleanupTemp env) st
  = (Normal tt, cleaned env (settled prefix (body st))).
Proof.
  unfold try_catch_finally, try_catch.
  destruct (body st) as [[[]|e] s]; simpl; rewrite run_cleanupTemp; reflexivity.
Qed.

Section Commands.
Variable env : Env.

Lemma run_add_v1 (component : string) (st : State) :
  PackagesCli.add env component st =
  (Normal tt, cleaned env (settled "Failed to add component: "
     (PackagesCli.add_body env component
        (logged (EvSpinner Start "Fetching component...") st)))).
Proof. unfold PackagesCli.add. rewrite run_bind. apply run_guarded. Qed.

Lemma run_init_v1 (st : State) :
  PackagesCli.init env st =
  (Normal tt, cleaned env (settled "Failed to initialize: "
     (PackagesCli.init_body env
        (logged (EvSpinner Start "Initializing solo-ui...") st)))).
Proof. unfold PackagesCli.init. rewrite run_bind. apply run_guarded. Qed.

Lemma run_list_v1 (st : State) :
  PackagesCli.list env st =
  (Normal tt, cleaned env (settled "Failed to fetch components: "
     (PackagesCli.list_body env
        (logged (EvSpinner Start "Fetching components...") st)))).
Proof. unfold PackagesCli.list. rewrite run_bind. apply run_guarded. Qed.

Lemma run_add_v2 (component : string) (st : State) :
  Part001.add env component st =
  (Normal tt, cleaned env (settled "Failed to add component: "
     (Part001.add_body env component
        (logged (EvSpinner Start "Fetching component...") st)))).
Proof. unfold Part001.add. rewrite run_bind. apply run_guarded. Qed.

Lemma run_init_v2 (st : State) :
  Part001.init env st =
  (Normal tt, cleaned env (settled "Failed to initialize: "
     (Part001.init_body env
        (logged (EvSpinner Start "Initializing solo-ui...") st)))).
Proof. unfold Part001.init. rewrite run_bind. apply run_guarded. Qed.

Lemma run_list_v2 (st : State) :
  Part001.list env st =
  (Normal tt, cleaned env (settled "Failed to fetch components: "
     (Part001.list_body env
        (logged (EvSpinner Start "Fetching components...") st)))).
Proof. unfold Part001.list. rewrite run_bind. apply run_guarded. Qed.
End Commands.

Ltac run_command :=
  unfold exec, completion;
  rewrite ?run_add_v1, ?run_init_v1, ?run_list_v1,
          ?run_add_v2, ?run_init_v2, ?run_list_v2; simpl fst; simpl snd.

(** C2 (as amended).  When the recursive removal of the scratch directory
    is not refused, no invocation of [init], [add] or [list], of either
    entry point, whatever happens in its pipeline, ends with a scratch
    directory in place. *)
Theorem cleanup_invariant (env : Env) (component : string) (st : State) :
  remove_fails env = false ->
  let scratch := Part001.TEMP_DIR env in
  lookup scratch (fs (exec (PackagesCli.init env) st)) = None /\
  lookup scratch (fs (exec (PackagesCli.add env component) st)) = None /\
  lookup scratch (fs (exec (PackagesCli.list env) st)) = None /\
  lookup scratch (fs (exec (Part001.init env) st)) = None /\
  lookup scratch (fs (exec (Part001.add env component) st)) = None /\
  lookup scratch (fs (exec (Part001.list env) st)) = None.
Proof.
  intros R scratch. subst scratch.
  repeat split; run_command; apply cleaned_no_scratch; assumption.
Qed.

Lemma cleanup_invariant_witness :
  lookup ["home"; "app"; ".solo-ui-temp"]
         (fs (exec (Part001.add Sample.env "button") Sample.initialised)) = None.
Proof.
  exact (proj1 (proj2 (proj2 (proj2 (proj2
    (@cleanup_invariant Sample.env "button" Sample.initialised eq_refl)))))).
Defined.

(** C2, as the specification words it, fails: [cleanupTemp] swallows a
    failed removal with a warning, and the scratch directory stays. *)
Lemma scratch_left_when_removal_fails :
  let final := exec (Part001.add Sample.env_locked "button") Sample.initialised in
  completion (Part001.add Sample.env_locked "button") Sample.initialised = Normal tt /\
  exists_at (Part001.TEMP_DIR Sample.env_locked) (fs final) = true /\
  last (log final) (EvLog EmptyString) = EvWarn "Failed to clean up temporary directory".
Proof. vm_compute. repeat split. Qed.

Lemma cleaned_log (env : Env) (st : State) (e : Event) :
  In e (log st) -> In e (log (cleaned env st)).
Proof.
  intros H. unfold cleaned.
  destruct (exists_at _ _); [destruct (remove_fails env)|]; simpl;
    apply in_or_app; auto.
Qed.

Lemma guarded_intro (env : Env) (start prefix : string) (body command : M unit) :
  (forall st, command st =
     (Normal tt, cleaned env (settled prefix (body (logged (EvSpinner Start start) st))))) ->
  guarded env start prefix body command.
Proof.
  intros Run st. unfold completion, exec. rewrite Run. simpl.
  split; [reflexivity|]. split.
  - intros e s E. rewrite E, run_cleanupTemp. simpl. split; [reflexivity|].
    apply cleaned_log. unfold logged; simpl. apply in_or_app; right; left; reflexivity.
  - intros s E. rewrite E, run_cleanupTemp. reflexivity.
Qed.

(** C9.  Each of the six commands is guarded: whatever its pipeline throws,
    at whatever stage, the command itself completes normally; the error
    message, behind the command's prefix, is put on the spinner with
    [spinner.fail]; and [cleanupTemp] runs after that. *)
Theorem errors_caught_at_boundary (env : Env) (component : string) :
  guarded env "Initializing solo-ui..." "Failed to initialize: "
          (PackagesCli.init_body env) (PackagesCli.init env) /\
  guarded env "Fetching component..." "Failed to add component: "
          (PackagesCli.add_body env component) (PackagesCli.add env component) /\
  guarded env "Fetching components..." "Failed to fetch components: "
          (PackagesCli.list_body env) (PackagesCli.list env) /\
  guarded env "Initializing solo-ui..." "Failed to initialize: "
          (Part001.init_body env) (Part001.init env) /\
  guarded env "Fetching component..." "Failed to add component: "
          (Part001.add_body env component) (Part001.add env component) /\
  guarded env "Fetching components..." "Failed to fetch components: "
          (Part001.list_body env) (Part001.list env).
Proof.
  repeat match goal with |- _ /\ _ => split end;
    apply guarded_intro; intros st;
    auto using run_init_v1, run_add_v1, run_list_v1,
               run_init_v2, run_add_v2, run_list_v2.
Qed.

(** A pipeline that fails at its last stage: the component is copied, the
    style merge cannot read the stylesheet, and the failure is reported. *)
Lemma errors_caught_at_boundary_witness :
  In (EvSpinner Fail
        "Failed to add component: ENOENT: /home/app/src/styles/globals.css")
     (log (exec (Part001.add Sample.env "button") Sample.bare)).
Proof.
  destruct (@errors_caught_at_boundary Sample.env "button")
    as (_ & _ & _ & _ & G & _).
  destruct (G Sample.bare) as (_ & Caught & _).
  exact (proj2 (Caught _ _ eq_refl)).
Defined.

(** ** The project validator *)

Section Validator.
Variables (env : Env) (st : State).
Hypothesis no_manifest : exists_at (resolve env "package.json") (fs st) = false.

Lemma checkProjectConfig_fails (s : State) :
  fs s = fs st ->
  Part001.checkProjectConfig env s =
  (Throw (Err "No package.json found. Please run this command in a Node.js project."),
   logged (EvFs PathExists (resolve env "package.json")) s).
Proof.
  intros E. unfold Part001.checkProjectConfig.
  rewrite run_bind, run_pathExists, E, no_manifest. reflexivity.
Qed.
End Validator.

(** C4 (as amended).  In a directory without [package.json], [init] and
    [add] of either entry point do one existence check, report the missing
    manifest, and clean up: nothing is written and nothing is fetched before
    the report; afterwards [cleanupTemp] removes a scratch directory that
    was lying there, and where there is none the tree is left as it was. *)
Theorem no_manifest_fails (env : Env) (component : string) (st : State) :
  exists_at (resolve env "package.json") (fs st) = false ->
  let init_end :=
    cleaned env (not_a_project env "Initializing solo-ui..." "Failed to initialize: " st) in
  let add_end :=
    cleaned env (not_a_project env "Fetching component..." "Failed to add component: " st) in
  (exec (PackagesCli.init env) st = init_end /\
   exec (PackagesCli.add env component) st = add_end /\
   exec (Part001.init env) st = init_end /\
   exec (Part001.add env component) st = add_end) /\
  (exists_at (Part001.TEMP_DIR env) (fs st) = false ->
   fs init_end = fs st /\ fs add_end = fs st /\
   log add_end = (log st ++
     [EvSpinner Start "Fetching component...";
      EvFs PathExists (resolve env "package.json");
      EvSpinner Fail ("Failed to add component: " ++
        "No package.json found. Please run this command in a Node.js project.");
      EvFs PathExists (Part001.TEMP_DIR env)])%list).
Proof.
  intros H init_end add_end. split.
  - repeat split; run_command;
      unfold PackagesCli.init_body, PackagesCli.init_install,
             PackagesCli.add_body, PackagesCli.add_prepare,
             Part001.init_body, Part001.init_install,
             Part001.add_body, Part001.add_prepare;
      rewrite ?run_bind;
      change (PackagesCli.checkProjectConfig env) with (Part001.checkProjectConfig env);
      rewrite (@checkProjectConfig_fails env st H) by reflexivity;
      unfold settled, logged, errorMessage, not_a_project; simpl;
      rewrite <- ?app_assoc; reflexivity.
  - intros T. subst init_end add_end. unfold cleaned, not_a_project. simpl.
    rewrite T. simpl. rewrite <- ?app_assoc. auto.
Qed.

Lemma no_manifest_fails_witness :
  fs (exec (Part001.init Sample.env) Sample.no_manifest) = fs Sample.no_manifest.
Proof.
  destruct (@no_manifest_fails Sample.env "button" Sample.no_manifest eq_refl)
    as [(_ & _ & E & _) Same].
  rewrite E. exact (proj1 (Same eq_refl)).
Defined.

(** C4, as the specification words it, fails: with a scratch directory left
    by a killed run, the failed command still removes it. *)
Lemma no_manifest_still_removes_scratch :
  let final := exec (Part001.init Sample.env) Sample.no_manifest_stale in
  exists_at (resolve Sample.env "package.json") (fs Sample.no_manifest_stale) = false /\
  In (EvFs Remove (Part001.TEMP_DIR Sample.env)) (log final) /\
  mutating Remove = true /\
  fs final <> fs Sample.no_manifest_stale.
Proof.
  cbv zeta. split; [reflexivity|]. split; [|split; [reflexivity|]].
  - vm_compute. intuition.
  - vm_compute. discriminate.
Qed.

(** ** The remote fetch *)

Lemma run_ensureDir_dir (p : path) (es : list (string * Node)) (st : State) :
  lookup p (fs st) = Some (Dir es) ->
  ensureDir p st = (Normal tt, logged (EvFs EnsureDir p) st).
Proof.
  intros L. unfold ensureDir, bind, emit, get_fs, logged; simpl. now rewrite L.
Qed.

Lemma run_ensureDir_new (p : path) (st : State) (t' : Node) :
  lookup p (fs st) = None ->
  place p (Dir []) (Some (fs st)) = Some t' ->
  ensureDir p st = (Normal tt, mkState t' (log st ++ [EvFs EnsureDir p])%list).
Proof.
  intros L P. unfold ensureDir, bind, emit, get_fs, set_fs; simpl. now rewrite L, P.
Qed.

Section Clone.
Variables (env : Env) (url : string) (dest : path).

Lemma run_git_clone_refused (entry : string * Node) (rest : list (string * Node))
  (st : State) :
  lookup dest (fs st) = Some (Dir (entry :: rest)) ->
  git_clone env url dest st =
  (Throw (GitErr (not_empty_message dest)), logged (EvClone url dest) st).
Proof.
  intros L. unfold git_clone, bind, emit, get_fs, logged; simpl. now rewrite L.
Qed.

Lemma run_git_clone_fresh (tree : list (string * Node)) (st : State) (t' : Node) :
  lookup dest (fs st) = None \/ lookup dest (fs st) = Some (Dir []) ->
  remote env = Some tree ->
  place dest (Dir tree) (Some (fs st)) = Some t' ->
  git_clone env url dest st =
  (Normal tt, mkState t' (log st ++ [EvClone url dest])%list).
Proof.
  intros L R P. unfold git_clone, bind, emit, get_fs, set_fs; simpl.
  destruct L as [L|L]; rewrite L, R, P; reflexivity.
Qed.
End Clone.

(** The fetch, where the scratch directory is a leftover with entries. *)
Lemma fetch_refused (env : Env) (entry : string * Node)
  (rest : list (string * Node)) (st : State) :
  lookup (Part001.TEMP_DIR env) (fs st) = Some (Dir (entry :: rest)) ->
  fetch env st =
  (Throw (GitErr (not_empty_message (Part001.TEMP_DIR env))),
   mkState (fs st)
     (log st ++ [EvFs EnsureDir (Part001.TEMP_DIR env);
                 EvClone REPO_URL (Part001.TEMP_DIR env)])%list).
Proof.
  intros L. unfold fetch.
  rewrite run_bind, (run_ensureDir_dir _ _ _ L).
  erewrite run_git_clone_refused by (simpl; exact L).
  unfold logged; simpl. rewrite <- app_assoc. reflexivity.
Qed.

(** The fetch, where the scratch directory is absent or empty. *)
Lemma fetch_fresh (env : Env) (tree : list (string * Node)) (st : State) :
  remote env = Some tree ->
  is_dir (lookup (cwd env) (fs st)) = true ->
  lookup (Part001.TEMP_DIR env) (fs st) = None \/
  lookup (Part001.TEMP_DIR env) (fs st) = Some (Dir []) ->
  exists st',
    fetch env st = (Normal tt, st') /\
    lookup (Part001.TEMP_DIR env) (fs st') = Some (Dir tree).
Proof.
  intros R C L. unfold fetch. rewrite run_bind.
  destruct L as [L|L].
  - destruct (@place_below (cwd env) ".solo-ui-temp" (Dir []) (fs st) C) as [t1 P1].
    rewrite <- temp_path in P1.
    rewrite (run_ensureDir_new _ _ _ L P1).
    assert (L1 : lookup (Part001.TEMP_DIR env) t1 = Some (Dir [])).
    { eapply place_lookup; eauto. }
    destruct (@place_exists (Part001.TEMP_DIR env) (Dir tree) t1) as [t2 P2].
    { unfold exists_at. now rewrite L1. }
    erewrite run_git_clone_fresh; simpl; eauto.
    eexists; split; [reflexivity|]. simpl. eapply place_lookup; eauto.
  - rewrite (run_ensureDir_dir _ _ _ L).
    destruct (@place_exists (Part001.TEMP_DIR env) (Dir tree) (fs st)) as [t2 P2].
    { unfold exists_at. now rewrite L. }
    erewrite run_git_clone_fresh; simpl; eauto.
    eexists; split; [reflexivity|]. simpl. eapply place_lookup; eauto.
Qed.

Lemma bind_assoc_run {A B C : Type} (m : M A) (f : A -> M B) (k : B -> M C)
  (st : State) :
  bind (bind m f) k st = bind m (fun a => bind (f a) k) st.
Proof. unfold bind. destruct (m st) as [[a|e] s]; reflexivity. Qed.

Lemma list_catalog_v1_fetch (env : Env) (st : State) :
  PackagesCli.list_catalog env st =
  bind (fetch env) (fun _ => readdir (PackagesCli.componentsDir env)) st.
Proof. unfold fetch. rewrite bind_assoc_run. reflexivity. Qed.

Lemma list_catalog_v2_fetch (env : Env) (st : State) :
  Part001.list_catalog env st =
  bind (fetch env)
       (fun _ => items <- readdir (Part001.componentsDir env) ;;
                 filterM (Part001.is_component env) items) st.
Proof. unfold fetch. rewrite bind_assoc_run. reflexivity. Qed.

(** The clone alone, as [init] runs it, into an absent or empty directory. *)
Lemma clone_fresh (env : Env) (tree : list (string * Node)) (st : State) :
  remote env = Some tree ->
  is_dir (lookup (cwd env) (fs st)) = true ->
  lookup (Part001.TEMP_DIR env) (fs st) = None \/
  lookup (Part001.TEMP_DIR env) (fs st) = Some (Dir []) ->
  exists st',
    git_clone env REPO_URL (Part001.TEMP_DIR env) st = (Normal tt, st') /\
    lookup (Part001.TEMP_DIR env) (fs st') = Some (Dir tree).
Proof.
  intros R C L.
  assert (P : exists t', place (Part001.TEMP_DIR env) (Dir tree) (Some (fs st)) = Some t').
  { destruct L as [L|L].
    - rewrite temp_path. now apply place_below.
    - apply place_exists. unfold exists_at. now rewrite L. }
  destruct P as [t' P].
  erewrite run_git_clone_fresh; eauto.
  eexists; split; [reflexivity|]. simpl. eapply place_lookup; eauto.
Qed.

(** C5 (as amended).  Before the clone, [add] and [list] ensure that the
    scratch directory exists and leave what is in it; [init] clones at
    once.  Into an absent or empty scratch directory the clone succeeds and
    the directory then holds the fetched tree and nothing else.  A scratch
    directory with entries makes git refuse the clone; [list] then reports
    the failure and cleans up, so that (the removal not being refused) the
    leftover is gone when the command ends. *)
Theorem fetch_needs_fresh_scratch (env : Env) (st : State) :
  let scratch := Part001.TEMP_DIR env in
  (forall tree,
     remote env = Some tree ->
     is_dir (lookup (cwd env) (fs st)) = true ->
     lookup scratch (fs st) = None \/ lookup scratch (fs st) = Some (Dir []) ->
     completion (fetch env) st = Normal tt /\
     lookup scratch (fs (exec (fetch env) st)) = Some (Dir tree) /\
     completion (git_clone env REPO_URL scratch) st = Normal tt /\
     lookup scratch (fs (exec (git_clone env REPO_URL scratch) st)) = Some (Dir tree))
  /\
  (forall entry rest,
     lookup scratch (fs st) = Some (Dir (entry :: rest)) ->
     let refusal := GitErr (not_empty_message scratch) in
     exec (ensureDir scratch) st = logged (EvFs EnsureDir scratch) st /\
     completion (git_clone env REPO_URL scratch) st = Throw refusal /\
     completion (fetch env) st = Throw refusal /\
     fs (exec (fetch env) st) = fs st /\
     (forall v2 : bool,
        exec (if v2 then Part001.list env else PackagesCli.list env) st =
        cleaned env
          (mkState (fs st)
             (log st ++
              [EvSpinner Start "Fetching components...";
               EvFs EnsureDir scratch;
               EvClone REPO_URL scratch;
               EvSpinner Fail ("Failed to fetch components: " ++
                               not_empty_message scratch)])%list)) /\
     (remove_fails env = false ->
      lookup scratch (fs (exec (Part001.list env) st)) = None /\
      lookup scratch (fs (exec (PackagesCli.list env) st)) = None)).
Proof.
  intros scratch. subst scratch. split.
  - intros tree R C L.
    destruct (fetch_fresh env tree st R C L) as (st' & E & L').
    destruct (clone_fresh env tree st R C L) as (st2 & E2 & L2).
    unfold completion, exec. rewrite E, E2. auto.
  - intros entry rest L refusal.
    assert (F := fetch_refused env entry rest st L).
    split; [|split; [|split; [|split; [|split]]]].
    + unfold exec. now rewrite (run_ensureDir_dir _ _ _ L).
    + unfold completion. now erewrite run_git_clone_refused by exact L.
    + unfold completion. now rewrite F.
    + unfold exec. now rewrite F.
    + assert (F' : forall k : unit -> M (list string),
                bind (fetch env) k (logged (EvSpinner Start "Fetching components...") st)
                = (Throw refusal,
                   mkState (fs st)
                     (log st ++ [EvSpinner Start "Fetching components...";
                                 EvFs EnsureDir (Part001.TEMP_DIR env);
                                 EvClone REPO_URL (Part001.TEMP_DIR env)])%list)).
      { intros k. rewrite run_bind, (fetch_refused env entry rest) by exact L.
        unfold logged; simpl. rewrite <- app_assoc. reflexivity. }
      intros [|]; run_command.
      * unfold Part001.list_body.
        rewrite run_bind, list_catalog_v2_fetch, F'.
        unfold settled, logged, errorMessage; simpl.
        rewrite <- app_assoc. reflexivity.
      * unfold PackagesCli.list_body.
        rewrite run_bind, list_catalog_v1_fetch, F'.
        unfold settled, logged, errorMessage; simpl.
        rewrite <- app_assoc. reflexivity.
    + intros R. split; run_command; apply cleaned_no_scratch; exact R.
Qed.

Lemma fetch_needs_fresh_scratch_witness :
  lookup (Part001.TEMP_DIR Sample.env) (fs (exec (fetch Sample.env) Sample.bare))
  = Some (Dir Sample.catalog).
Proof.
  destruct (fetch_needs_fresh_scratch Sample.env Sample.bare) as [Fresh _].
  exact (proj1 (proj2 (Fresh Sample.catalog eq_refl eq_refl (or_introl eq_refl)))).
Defined.

(** C5, as the specification words it, fails: nothing empties the scratch
    directory before the clone, and over a leftover with entries the fetch
    of [add] is refused although the remote is reachable. *)
Lemma stale_scratch_breaks_fetch :
  let scratch := Part001.TEMP_DIR Sample.env in
  remote Sample.env = Some Sample.catalog /\
  lookup scratch (fs Sample.stale) = Some (Dir [("junk", File "left over")]) /\
  completion (Part001.add_prepare Sample.env "button") Sample.stale
    = Throw (GitErr (not_empty_message scratch)) /\
  completion (PackagesCli.add_prepare Sample.env "button") Sample.stale
    = Throw (GitErr (not_empty_message scratch)) /\
  In (EvSpinner Fail ("Failed to add component: " ++ not_empty_message scratch))
     (log (exec (Part001.add Sample.env "button") Sample.stale)).
Proof.
  cbv zeta. repeat split; try reflexivity.
  vm_compute. intuition.
Qed.

(** ** The manifest update of [init] *)

Lemma spread_falsy (v : option Json) : truthy v = false -> spread v = [].
Proof.
  destruct v as [[| b | q | s | items | fields]|]; simpl; intros H;
    try reflexivity; try discriminate.
  destruct s; [reflexivity | discriminate].
Qed.

Lemma run_write_at_file (op : FsOp) (p : path) (f : option string -> string)
  (c : string) (st : State) (t' : Node) :
  p <> [] ->
  lookup p (fs st) = Some (File c) ->
  place p (File (f (Some c))) (Some (fs st)) = Some t' ->
  write_at op p f st = (Normal tt, mkState t' (log st ++ [EvFs op p])%list).
Proof.
  intros N L P. unfold write_at, bind, emit, get_fs, set_fs; simpl.
  destruct p as [|s p]; [congruence|]. rewrite L, P. reflexivity.
Qed.

Lemma manifest_not_root (env : Env) : resolve env "package.json" <> [].
Proof.
  rewrite manifest_path. intros E. apply app_eq_nil in E as [_ E]. discriminate.
Qed.

Lemma default_object_other (k k' : string) (fields : list (string * Json)) :
  k <> k' -> assoc k' (default_object k fields) = assoc k' fields.
Proof.
  intros N. unfold default_object. destruct (truthy _); auto.
  now apply assoc_set_neq.
Qed.

Lemma default_object_self (k : string) (fields : list (string * Json)) :
  assoc k (default_object k fields) =
  if truthy (assoc k fields) then assoc k fields else Some (JObj []).
Proof.
  unfold default_object. destruct (truthy _); auto. apply assoc_set_eq.
Qed.

Lemma default_object_spread (k : string) (fields : list (string * Json)) :
  spread (assoc k (default_object k fields)) = spread (assoc k fields).
Proof.
  rewrite default_object_self. destruct (truthy _) eqn:T; auto.
  now rewrite (spread_falsy _ T).
Qed.

(** Reading, updating and writing back the manifest (index.ts 143-154,
    part_001 154-165). *)
Lemma manifest_rewritten (env : Env) (s : State) (text : string)
  (fields : list (string * Json)) (k : unit -> M unit) :
  lookup (resolve env "package.json") (fs s) = Some (File text) ->
  parse env text = Some (JObj fields) ->
  exists t',
    lookup (resolve env "package.json") t'
      = Some (File (stringify env (JObj (update_fields fields)))) /\
    (packageJson <- readJson env (resolve env "package.json") ;;
     updated <- update_manifest packageJson ;;
     bind (writeJson env (resolve env "package.json") updated) k) s
    = k tt (mkState t' (log s ++ [EvFs ReadJson (resolve env "package.json");
                                  EvFs WriteJson (resolve env "package.json")])%list).
Proof.
  intros L P.
  destruct (place_exists (resolve env "package.json")
              (File (stringify env (JObj (update_fields fields)))) (fs s))
    as [t' Ht'].
  { unfold exists_at. now rewrite L. }
  exists t'. split; [eapply place_lookup; eauto|].
  rewrite run_bind.
  assert (R : readJson env (resolve env "package.json") s
              = (Normal (JObj fields), logged (EvFs ReadJson (resolve env "package.json")) s)).
  { unfold readJson, bind, emit, get_fs, logged; simpl. now rewrite L, P. }
  rewrite R. simpl update_manifest.
  rewrite run_bind. unfold ret at 1. rewrite run_bind.
  unfold writeJson.
  erewrite run_write_at_file; simpl; eauto using manifest_not_root.
  rewrite <- app_assoc. reflexivity.
Qed.

Lemma emit_fs (e : Event) (st : State) : fs (exec (emit e) st) = fs st.
Proof. reflexivity. Qed.

Lemma cleaned_keeps (env : Env) (st : State) (q : path) :
  diverge (Part001.TEMP_DIR env) q = true ->
  lookup q (fs (cleaned env st)) = lookup q (fs st).
Proof.
  intros D. unfold cleaned.
  destruct (exists_at _ _); [destruct (remove_fails env)|]; simpl; auto.
  now apply rm_diverge.
Qed.

Lemma scratch_apart (env : Env) (s : string) (rest : path) :
  (".solo-ui-temp" =? s) = false ->
  diverge (Part001.TEMP_DIR env) (cwd env ++ s :: rest)%list = true.
Proof.
  intros N. rewrite temp_path, diverge_app. cbn [diverge]. now rewrite N.
Qed.

(** C6 (as amended).  On a manifest that is a JSON object the update of
    [init] leaves [devDependencies] an object that holds the three pinned
    entries and, under every other name, what [devDependencies] held before;
    it sets [dependencies] to an empty object when that field is missing or
    falsy and keeps it otherwise; every other field is as before.  [init] of
    either entry point, once its templates are copied, writes this update of
    the parsed manifest back to [package.json]. *)
Theorem init_updates_manifest (env : Env) (fields : list (string * Json)) :
  (exists dev,
     assoc "devDependencies" (update_fields fields) = Some (JObj dev) /\
     assoc "tailwindcss" dev = Some (JStr "^3.4.0") /\
     assoc "postcss" dev = Some (JStr "^8.4.0") /\
     assoc "autoprefixer" dev = Some (JStr "^10.4.0") /\
     (forall k, k <> "tailwindcss" -> k <> "postcss" -> k <> "autoprefixer" ->
        assoc k dev = assoc k (spread (assoc "devDependencies" fields)))) /\
  assoc "dependencies" (update_fields fields) =
    (if truthy (assoc "dependencies" fields) then assoc "dependencies" fields
     else Some (JObj [])) /\
  (forall k, k <> "devDependencies" -> k <> "dependencies" ->
     assoc k (update_fields fields) = assoc k fields) /\
  (forall (v2 : bool) (st s : State) (text : string),
     (if v2 then Part001.init_install env else PackagesCli.init_install env)
       (logged (EvSpinner Start "Initializing solo-ui...") st) = (Normal tt, s) ->
     lookup (resolve env "package.json") (fs s) = Some (File text) ->
     parse env text = Some (JObj fields) ->
     lookup (resolve env "package.json")
       (fs (exec (if v2 then Part001.init env else PackagesCli.init env) st))
     = Some (File (stringify env (JObj (update_fields fields))))).
Proof.
  split; [|split; [|split]].
  - unfold update_fields. eexists. split; [apply assoc_set_eq|]. simpl fold_left.
    rewrite default_object_spread, default_object_other by discriminate.
    repeat split.
    + rewrite !assoc_set_neq by discriminate. apply assoc_set_eq.
    + rewrite assoc_set_neq by discriminate. apply assoc_set_eq.
    + apply assoc_set_eq.
    + intros k N1 N2 N3. rewrite !assoc_set_neq; auto.
  - unfold update_fields. rewrite assoc_set_neq by discriminate.
    rewrite default_object_other by discriminate. apply default_object_self.
  - intros k N1 N2. unfold update_fields.
    rewrite assoc_set_neq, !default_object_other by congruence. reflexivity.
  - intros v2 st s text I L P.
    assert (D : diverge (Part001.TEMP_DIR env) (resolve env "package.json") = true).
    { rewrite manifest_path. now apply scratch_apart. }
    destruct v2; run_command; rewrite (cleaned_keeps _ _ _ D);
      unfold Part001.init_body, PackagesCli.init_body;
      rewrite run_bind, I;
      unfold Part001.init_manifest, PackagesCli.init_manifest;
      match goal with
      | |- context [bind (writeJson _ _ _) ?k] =>
          destruct (manifest_rewritten env s text fields k L P) as (t' & Lt & Run)
      end;
      rewrite Run; simpl; exact Lt.
Qed.

Lemma init_updates_manifest_witness :
  lookup ["home"; "app"; "package.json"]
         (fs (exec (Part001.init Sample.env) Sample.bare))
  = Some (File "{ updated manifest }").
Proof.
  destruct (init_updates_manifest Sample.env
              [("name", JStr "app"); ("version", JStr "1.0.0")])
    as (_ & _ & _ & Writes).
  exact (Writes true Sample.bare _ "{ manifest }" eq_refl eq_refl eq_refl).
Defined.

(** C6, as the specification words it, fails: a manifest without
    [dependencies] gains that field. *)
Lemma init_adds_dependencies_field :
  Sample.manifest = JObj [("name", JStr "app"); ("version", JStr "1.0.0")] /\
  assoc "dependencies" [("name", JStr "app"); ("version", JStr "1.0.0")] = None /\
  assoc "dependencies"
        (update_fields [("name", JStr "app"); ("version", JStr "1.0.0")])
    = Some (JObj []) /\
  completion (update_manifest Sample.manifest) Sample.bare
    = Normal (JObj [("name", JStr "app"); ("version", JStr "1.0.0");
                    ("dependencies", JObj []);
                    ("devDependencies",
                     JObj [("tailwindcss", JStr "^3.4.0");
                           ("postcss", JStr "^8.4.0");
                           ("autoprefixer", JStr "^10.4.0")])]).
Proof. repeat split. Qed.

(** ** What a computation leaves alone *)

Section Keeps.
Variable P : path -> Prop.

Lemma same_on_refl (t : Node) : same_on P t t.
Proof. intros q _. reflexivity. Qed.

Lemma same_on_trans (t1 t2 t3 : Node) :
  same_on P t1 t2 -> same_on P t2 t3 -> same_on P t1 t3.
Proof. intros H12 H23 q Hq. rewrite (H23 q Hq). auto. Qed.

Lemma keeps_ret {A : Type} (a : A) : keeps P (ret a).
Proof. intros st. apply same_on_refl. Qed.

Lemma keeps_throw {A : Type} (e : Error) : keeps P (@throw A e).
Proof. intros st. apply same_on_refl. Qed.


Lemma keeps_get_fs : keeps P get_fs.
Proof. intros st. apply same_on_refl. Qed.

Lemma keeps_bind {A B : Type} (m : M A) (k : A -> M B) :
  keeps P m -> (forall a, keeps P (k a)) -> keeps P (bind m k).
Proof.
  intros Hm Hk st. unfold bind. specialize (Hm st).
  destruct (m st) as [[a|e] s]; simpl in *; auto.
  eapply same_on_trans; [exact Hm | apply Hk].
Qed.

Lemma keeps_try_catch {A : Type} (m : M A) (h : Error -> M A) :
  keeps P m -> (forall e, keeps P (h e)) -> keeps P (try_catch m h).
Proof.
  intros Hm Hh st. unfold try_catch. specialize (Hm st).
  destruct (m st) as [[a|e] s]; simpl in *; auto.
  eapply same_on_trans; [exact Hm | apply Hh].
Qed.

Lemma keeps_set_fs_after (t' : Node) (st : State) :
  same_on P (fs st) t' -> same_on P (fs st) (fs (snd (set_fs t' st))).
Proof. auto. Qed.

Lemma keeps_pathExists (p : path) : keeps P (pathExists p).
Proof. intros st. apply same_on_refl. Qed.

Lemma keeps_readFile (p : path) : keeps P (readFile p).
Proof. intros st. rewrite run_readFile. apply same_on_refl. Qed.

Lemma keeps_readJson (env : Env) (p : path) : keeps P (readJson env p).
Proof.
  intros st. unfold readJson, bind, emit, get_fs; simpl.
  destruct (lookup p (fs st)) as [[c|es]|]; simpl; try apply same_on_refl.
  destruct (parse env c); apply same_on_refl.
Qed.

Lemma keeps_get_prop (o : Json) (k : string) : keeps P (get_prop o k).
Proof. intros st. destruct o; apply same_on_refl. Qed.

Lemma keeps_console_warn (text : string) : keeps P (console_warn text).
Proof. intros st. apply same_on_refl. Qed.

(** Creating a directory away from the paths in [P]. *)
Lemma keeps_ensureDir_apart (p : path) :
  (forall q, P q -> diverge p q = true) -> keeps P (ensureDir p).
Proof.
  intros D st. unfold ensureDir, bind, emit, get_fs, set_fs; simpl.
  destruct (lookup p (fs st)) as [[c|es]|] eqn:L; simpl; try apply same_on_refl.
  destruct (place p (Dir []) (Some (fs st))) as [t'|] eqn:E; simpl;
    try apply same_on_refl.
  intros q Hq. apply (place_diverge _ _ _ _ _ E (D q Hq)).
Qed.

Lemma keeps_git_clone_apart (env : Env) (url : string) (p : path) :
  (forall q, P q -> diverge p q = true) -> keeps P (git_clone env url p).
Proof.
  intros D st. unfold git_clone, bind, emit, get_fs, set_fs; simpl.
  assert (Fresh : same_on P (fs st)
            (fs (snd (match remote env with
                      | Some tree =>
                          match place p (Dir tree) (Some (fs st)) with
                          | Some t' => fun st0 => (Normal tt, mkState t' (log st0))
                          | None => throw (GitErr "fatal: could not create work tree dir")
                          end
                      | None => throw (GitErr "fatal: unable to access the remote repository")
                      end (mkState (fs st) (log st ++ [EvClone url p])%list))))).
  { destruct (remote env) as [tree|]; simpl; try apply same_on_refl.
    destruct (place p (Dir tree) (Some (fs st))) as [t'|] eqn:E; simpl;
      try apply same_on_refl.
    intros q Hq. apply (place_diverge _ _ _ _ _ E (D q Hq)). }
  destruct (lookup p (fs st)) as [[c|[|entry rest]]|]; simpl;
    try apply same_on_refl; exact Fresh.
Qed.
End Keeps.

(** Creating the directory itself changes nothing below it. *)
Lemma keeps_ensureDir_below (dir : path) : keeps (below dir) (ensureDir dir).
Proof.
  intros st. unfold ensureDir, bind, emit, get_fs, set_fs; simpl.
  destruct (lookup dir (fs st)) as [[c|es]|] eqn:L; simpl; try apply same_on_refl.
  destruct (place dir (Dir []) (Some (fs st))) as [t'|] eqn:E; simpl;
    try apply same_on_refl.
  intros q (x & rest & ->). rewrite !lookup_app, L.
  now rewrite (place_lookup _ _ _ _ E).
Qed.

(** ** The component installer *)

Section AddPrepare.
Variables (env : Env) (component : string).

Lemma keeps_checkProjectConfig (P : path -> Prop) :
  keeps P (Part001.checkProjectConfig env).
Proof.
  apply keeps_bind; [apply keeps_pathExists|].
  intros []; [apply keeps_ret | apply keeps_throw].
Qed.

Lemma keeps_checkComponentDependencies (P : path -> Prop) :
  keeps P (Part001.checkComponentDependencies env component).
Proof.
  apply keeps_bind; [apply keeps_pathExists|].
  intros []; [|apply keeps_ret].
  apply keeps_bind; [apply keeps_readFile | intros; apply keeps_ret].
Qed.

Lemma keeps_checkVersion (P : path -> Prop) :
  keeps P (PackagesCli.checkVersion env).
Proof.
  apply keeps_try_catch; [|intros; apply keeps_console_warn].
  apply keeps_bind; [apply keeps_readJson | intros a].
  apply keeps_bind; [apply keeps_readJson | intros b].
  apply keeps_bind; [apply keeps_get_prop | intros va].
  apply keeps_bind; [apply keeps_get_prop | intros vb].
  destruct (strict_neq va vb); [apply keeps_console_warn | apply keeps_ret].
Qed.

Lemma scratch_apart_within (dir : string) (q : path) :
  (".solo-ui-temp" =? dir) = false ->
  within (cwd env ++ [dir])%list q -> diverge (Part001.TEMP_DIR env) q = true.
Proof.
  intros N (rest & ->). rewrite <- app_assoc. now apply scratch_apart.
Qed.

Lemma scratch_apart_below (dir : path) (first : string) (q : path) :
  (".solo-ui-temp" =? first) = false ->
  below (cwd env ++ first :: dir)%list q -> diverge (Part001.TEMP_DIR env) q = true.
Proof.
  intros N (x & rest & ->). rewrite <- app_assoc. now apply scratch_apart.
Qed.

Lemma keeps_add_prepare_v1 :
  keeps (within (cwd env ++ ["components"])%list) (PackagesCli.add_prepare env component).
Proof.
  assert (D : forall q, within (cwd env ++ ["components"])%list q ->
                        diverge (Part001.TEMP_DIR env) q = true).
  { intros q. now apply scratch_apart_within. }
  unfold PackagesCli.add_prepare.
  apply keeps_bind; [apply keeps_checkProjectConfig | intros _].
  apply keeps_bind; [now apply keeps_ensureDir_apart | intros _].
  apply keeps_bind; [now apply keeps_git_clone_apart | intros _].
  apply keeps_bind; [apply keeps_checkVersion | intros _].
  apply keeps_checkComponentDependencies.
Qed.

Lemma keeps_add_prepare_v2 :
  keeps (below (cwd env ++ ["src"; "components"])%list) (Part001.add_prepare env component).
Proof.
  assert (D : forall q, below (cwd env ++ ["src"; "components"])%list q ->
                        diverge (Part001.TEMP_DIR env) q = true).
  { intros q. now apply scratch_apart_below. }
  unfold Part001.add_prepare.
  apply keeps_bind; [apply keeps_checkProjectConfig | intros _].
  apply keeps_bind; [now apply keeps_ensureDir_apart | intros _].
  apply keeps_bind; [|intros _].
  { rewrite components_path_v2. apply keeps_ensureDir_below. }
  apply keeps_bind; [now apply keeps_git_clone_apart | intros _].
  apply keeps_checkComponentDependencies.
Qed.
End AddPrepare.

Lemma cleaned_same_on (env : Env) (P : path -> Prop) (st : State) :
  (forall q, P q -> diverge (Part001.TEMP_DIR env) q = true) ->
  same_on P (fs st) (fs (cleaned env st)).
Proof. intros D q Hq. apply cleaned_keeps. auto. Qed.

(** C3.  Where [add] has validated the project, fetched the catalog and
    passed its checks, and the path of the named component does not exist
    in the fetched tree, the command does one more existence check, reports
    that the component was not found, and cleans up; nothing is copied, and
    no path below the project's components directory is created, changed or
    removed by the invocation.  (With index.ts the directory itself is left
    as it was, too.) *)
Theorem add_unknown_component (env : Env) (component : string) (st : State) :
  (forall s,
     PackagesCli.add_prepare env component
       (logged (EvSpinner Start "Fetching component...") st) = (Normal tt, s) ->
     exists_at (PackagesCli.componentPath env component) (fs s) = false ->
     exec (PackagesCli.add env component) st =
       cleaned env
         (mkState (fs s)
            (log s ++
             [EvFs PathExists (PackagesCli.componentPath env component);
              EvSpinner Fail ("Failed to add component: " ++
                              "Component " ++ component ++ " not found")])%list) /\
     same_on (within (cwd env ++ ["components"])%list)
             (fs st) (fs (exec (PackagesCli.add env component) st)))
  /\
  (forall s,
     Part001.add_prepare env component
       (logged (EvSpinner Start "Fetching component...") st) = (Normal tt, s) ->
     exists_at (Part001.componentPath env component) (fs s) = false ->
     exec (Part001.add env component) st =
       cleaned env
         (mkState (fs s)
            (log s ++
             [EvFs PathExists (Part001.componentPath env component);
              EvSpinner Fail ("Failed to add component: " ++
                              "Component " ++ component ++
                              " not found in solo-ui components")])%list) /\
     same_on (below (cwd env ++ ["src"; "components"])%list)
             (fs st) (fs (exec (Part001.add env component) st))).
Proof.
  split; intros s Prep Absent.
  - assert (Run : exec (PackagesCli.add env component) st =
       cleaned env
         (mkState (fs s)
            (log s ++
             [EvFs PathExists (PackagesCli.componentPath env component);
              EvSpinner Fail ("Failed to add component: " ++
                              "Component " ++ component ++ " not found")])%list)).
    { run_command. unfold PackagesCli.add_body.
      rewrite run_bind, Prep. rewrite run_bind.
      unfold PackagesCli.add_install.
      rewrite run_bind, run_pathExists, Absent. simpl.
      unfold logged; simpl. rewrite <- app_assoc. reflexivity. }
    split; [exact Run|]. rewrite Run.
    eapply same_on_trans; [|apply cleaned_same_on; intros q; now apply scratch_apart_within].
    simpl. pose proof (keeps_add_prepare_v1 env component
                         (logged (EvSpinner Start "Fetching component...") st)) as K.
    rewrite Prep in K. exact K.
  - assert (Run : exec (Part001.add env component) st =
       cleaned env
         (mkState (fs s)
            (log s ++
             [EvFs PathExists (Part001.componentPath env component);
              EvSpinner Fail ("Failed to add component: " ++
                              "Component " ++ component ++
                              " not found in solo-ui components")])%list)).
    { run_command. unfold Part001.add_body.
      rewrite run_bind, Prep. rewrite run_bind.
      unfold Part001.add_install.
      rewrite run_bind, run_pathExists, Absent. simpl.
      unfold logged; simpl. rewrite <- app_assoc. reflexivity. }
    split; [exact Run|]. rewrite Run.
    eapply same_on_trans; [|apply cleaned_same_on; intros q; now apply scratch_apart_below].
    simpl. pose proof (keeps_add_prepare_v2 env component
                         (logged (EvSpinner Start "Fetching component...") st)) as K.
    rewrite Prep in K. exact K.
Qed.

Lemma add_unknown_component_witness :
  In (EvSpinner Fail
        "Failed to add component: Component ghost not found in solo-ui components")
     (log (exec (Part001.add Sample.env "ghost") Sample.initialised)) /\
  lookup ["home"; "app"; "src"; "components"]
         (fs (exec (Part001.add Sample.env "ghost") Sample.initialised))
  = Some (Dir []).
Proof.
  destruct (add_unknown_component Sample.env "ghost" Sample.initialised) as [_ V2].
  destruct (V2 _ eq_refl eq_refl) as [Run _].
  rewrite Run. vm_compute. intuition.
Defined.

(** ** The style merger without a global stylesheet *)

Lemma mergeStyles_at_throws (g cp : path) (st : State) :
  lookup g (fs st) = None ->
  exists_at (path_join cp ["styles.css"]) (fs st) = true ->
  exists e s',
    mergeStyles_at g cp st = (Throw e, s') /\ fs s' = fs st /\
    (e = FsErr "ENOENT" g \/ e = FsErr "EISDIR" (path_join cp ["styles.css"])).
Proof.
  intros Lg. unfold mergeStyles_at.
  rewrite run_bind, run_pathExists. unfold exists_at.
  destruct (lookup (path_join cp ["styles.css"]) (fs st)) as [[c|es]|] eqn:Lf;
    intros E; [| |discriminate].
  - rewrite run_bind, run_readFile. simpl fs. rewrite Lf.
    rewrite run_bind, run_readFile. simpl fs. rewrite Lg. simpl. eauto 6.
  - rewrite run_bind, run_readFile. simpl fs. rewrite Lf. simpl. eauto 6.
Qed.

Lemma mergeStyles_at_skips (g cp : path) (st : State) :
  exists_at (path_join cp ["styles.css"]) (fs st) = false ->
  mergeStyles_at g cp st
  = (Normal tt, logged (EvFs PathExists (path_join cp ["styles.css"])) st).
Proof.
  intros E. unfold mergeStyles_at. rewrite run_bind, run_pathExists, E. reflexivity.
Qed.

Lemma mergeStyles_at_absent (g cp : path) (st : State) :
  lookup g (fs st) = None ->
  fs (exec (mergeStyles_at g cp) st) = fs st.
Proof.
  intros Lg. unfold exec.
  destruct (exists_at (path_join cp ["styles.css"]) (fs st)) eqn:E.
  - destruct (mergeStyles_at_throws g cp st Lg E) as (e & s' & Run & Same & _).
    now rewrite Run.
  - now rewrite mergeStyles_at_skips.
Qed.

Lemma cleaned_keeps_absent (env : Env) (st : State) (q : path) :
  lookup q (fs st) = None -> lookup q (fs (cleaned env st)) = None.
Proof.
  intros L. unfold cleaned.
  destruct (exists_at _ _); [destruct (remove_fails env)|]; simpl; auto.
  now apply rm_keeps_absent.
Qed.

(** The end of [add] when the merge step throws. *)
Lemma add_fails_in_merge (env : Env) (prepare_install : M unit)
  (merge : M unit) (report : string) (s s' : State) (e : Error) (st : State) :
  prepare_install st = (Normal tt, s) ->
  merge s = (Throw e, s') ->
  settled "Failed to add component: "
    (bind prepare_install (fun _ => merge ;; spinner Succeed report) st)
  = logged (EvSpinner Fail ("Failed to add component: " ++ message e)) s'.
Proof.
  intros P Mg. rewrite run_bind, P, run_bind, Mg. reflexivity.
Qed.

(** C10.  [mergeStyles] never creates the global stylesheet: run where it
    is absent, it leaves the tree as it is; and when the component has a
    [styles.css] it throws the error of a failed file read.  So [add],
    having copied a component that has a [styles.css] into a project with
    no global stylesheet, reports that read error as its failure, and the
    stylesheet is still absent when the command ends. *)
Theorem merge_needs_global_stylesheet
  (env : Env) (componentPath : path) (st : State) :
  (forall v2 : bool,
     let globalStylePath :=
       if v2 then Part001.globalStylePath env else PackagesCli.globalStylePath env in
     let mergeStyles :=
       if v2 then Part001.mergeStyles env else PackagesCli.mergeStyles env in
     lookup globalStylePath (fs st) = None ->
     fs (exec (mergeStyles componentPath) st) = fs st /\
     (exists_at (path_join componentPath ["styles.css"]) (fs st) = true ->
      completion (mergeStyles componentPath) st = Throw (FsErr "ENOENT" globalStylePath) \/
      completion (mergeStyles componentPath) st
        = Throw (FsErr "EISDIR" (path_join componentPath ["styles.css"]))))
  /\
  (forall (component : string) (s : State),
     (Part001.add_prepare env component ;; Part001.add_install env component)
       (logged (EvSpinner Start "Fetching component...") st) = (Normal tt, s) ->
     exists_at (path_join (Part001.componentPath env component) ["styles.css"]) (fs s)
       = true ->
     lookup (Part001.globalStylePath env) (fs s) = None ->
     let final := exec (Part001.add env component) st in
     completion (Part001.add env component) st = Normal tt /\
     (exists e,
        (e = FsErr "ENOENT" (Part001.globalStylePath env) \/
         e = FsErr "EISDIR" (path_join (Part001.componentPath env component) ["styles.css"])) /\
        In (EvSpinner Fail ("Failed to add component: " ++ message e)) (log final)) /\
     fs final = fs (cleaned env s) /\
     lookup (Part001.globalStylePath env) (fs final) = None)
  /\
  (forall (component : string) (s : State),
     (PackagesCli.add_prepare env component ;; PackagesCli.add_install env component)
       (logged (EvSpinner Start "Fetching component...") st) = (Normal tt, s) ->
     exists_at (path_join (PackagesCli.componentPath env component) ["styles.css"]) (fs s)
       = true ->
     lookup (PackagesCli.globalStylePath env) (fs s) = None ->
     let final := exec (PackagesCli.add env component) st in
     completion (PackagesCli.add env component) st = Normal tt /\
     (exists e,
        (e = FsErr "ENOENT" (PackagesCli.globalStylePath env) \/
         e = FsErr "EISDIR" (path_join (PackagesCli.componentPath env component) ["styles.css"])) /\
        In (EvSpinner Fail ("Failed to add component: " ++ message e)) (log final)) /\
     fs final = fs (cleaned env s) /\
     lookup (PackagesCli.globalStylePath env) (fs final) = None).
Proof.
  split; [|split].
  - intros v2 g merge Lg. subst g merge.
    destruct v2; rewrite ?mergeStyles_v1, ?mergeStyles_v2;
      (split; [now apply mergeStyles_at_absent|]); intros E;
      destruct (mergeStyles_at_throws _ componentPath st Lg E)
        as (e & s' & Run & _ & [-> | ->]);
      unfold completion; rewrite Run; auto.
  - intros component s Prep Css Lg final. subst final.
    destruct (mergeStyles_at_throws _ (Part001.componentPath env component) s Lg Css)
      as (e & s' & Run & Same & Kind).
    run_command. unfold Part001.add_body.
    rewrite <- bind_assoc_run. unfold Part001.add_finish.
    rewrite (add_fails_in_merge env _ _ _ s s' e _ Prep Run).
    split; [reflexivity|]. split; [|split].
    + exists e. split; [exact Kind|]. apply cleaned_log.
      unfold logged; simpl. apply in_or_app; right; left; reflexivity.
    + unfold cleaned, logged; simpl. rewrite Same.
      destruct (exists_at (Part001.TEMP_DIR env) (fs s));
        [destruct (remove_fails env)|]; reflexivity.
    + apply cleaned_keeps_absent. simpl. now rewrite Same.
  - intros component s Prep Css Lg final. subst final.
    destruct (mergeStyles_at_throws _ (PackagesCli.componentPath env component) s Lg Css)
      as (e & s' & Run & Same & Kind).
    run_command. unfold PackagesCli.add_body.
    rewrite <- bind_assoc_run. unfold PackagesCli.add_finish.
    rewrite (add_fails_in_merge env _ _ _ s s' e _ Prep Run).
    split; [reflexivity|]. split; [|split].
    + exists e. split; [exact Kind|]. apply cleaned_log.
      unfold logged; simpl. apply in_or_app; right; left; reflexivity.
    + unfold cleaned, logged; simpl. rewrite Same.
      destruct (exists_at (Part001.TEMP_DIR env) (fs s));
        [destruct (remove_fails env)|]; reflexivity.
    + apply cleaned_keeps_absent. simpl. now rewrite Same.
Qed.

Lemma merge_needs_global_stylesheet_witness :
  lookup (Part001.globalStylePath Sample.env)
         (fs (exec (Part001.add Sample.env "button") Sample.bare)) = None /\
  lookup ["home"; "app"; "src"; "components"; "button"; "styles.css"]
         (fs (exec (Part001.add Sample.env "button") Sample.bare))
  = Some (File (".btn{}" ++ newline)).
Proof.
  destruct (merge_needs_global_stylesheet Sample.env [] Sample.bare)
    as (_ & Add & _).
  destruct (Add "button" _ eq_refl eq_refl eq_refl) as (_ & _ & Same & Absent).
  split; [exact Absent|]. rewrite Same. reflexivity.
Defined.

(** ** What a computation logs *)

Section Traces.
Variable P : Event -> Prop.

Lemma traces_ret {A : Type} (Q : A -> Prop) (a : A) : Q a -> traces P Q (ret a).
Proof.
  intros H st. split.
  - exists []. rewrite app_nil_r. auto.
  - intros b E. injection E as <-. exact H.
Qed.

Lemma traces_throw {A : Type} (Q : A -> Prop) (e : Error) : traces P Q (throw e).
Proof.
  intros st. split.
  - exists []. rewrite app_nil_r. auto.
  - discriminate.
Qed.

Lemma traces_emit (Q : unit -> Prop) (e : Event) :
  P e -> Q tt -> traces P Q (emit e).
Proof.
  intros H HQ st. split.
  - exists [e]. auto.
  - intros []. auto.
Qed.

Lemma traces_get_fs (Q : Node -> Prop) : (forall t, Q t) -> traces P Q get_fs.
Proof.
  intros HQ st. split.
  - exists []. rewrite app_nil_r. auto.
  - intros a _. apply HQ.
Qed.

Lemma traces_set_fs (Q : unit -> Prop) (t : Node) : Q tt -> traces P Q (set_fs t).
Proof.
  intros HQ st. split.
  - exists []. simpl. rewrite app_nil_r. auto.
  - intros []. auto.
Qed.

Lemma traces_bind {A B : Type} (Q : A -> Prop) (Q' : B -> Prop)
  (m : M A) (k : A -> M B) :
  traces P Q m -> (forall a, Q a -> traces P Q' (k a)) -> traces P Q' (bind m k).
Proof.
  intros Hm Hk st. unfold bind.
  destruct (Hm st) as [(evs & L & F) V].
  destruct (m st) as [[a|e] s]; simpl in *.
  - destruct (Hk a (V a eq_refl) s) as [(evs' & L' & F') V'].
    split; [|exact V'].
    exists (evs ++ evs')%list. rewrite L', L, app_assoc.
    split; [reflexivity | now apply Forall_app].
  - split; [eauto | discriminate].
Qed.

Lemma traces_weaken {A : Type} (Q Q' : A -> Prop) (m : M A) :
  (forall a, Q a -> Q' a) -> traces P Q m -> traces P Q' m.
Proof.
  intros W H st. destruct (H st) as [L V]. split; auto.
Qed.
End Traces.

Ltac trace_step :=
  match goal with
  | |- traces _ _ (bind (emit _) _) =>
      eapply (@traces_bind _ _ _ (fun _ => True)); [|intros ? _]
  | |- traces _ _ (bind get_fs _) =>
      eapply (@traces_bind _ _ _ (fun _ => True)); [|intros ? _]
  | |- traces _ _ (bind (set_fs _) _) =>
      eapply (@traces_bind _ _ _ (fun _ => True)); [|intros ? _]
  | |- traces _ _ (ret _) => apply traces_ret
  | |- traces _ _ (throw _) => apply traces_throw
  | |- traces _ _ (emit _) => apply traces_emit
  | |- traces _ _ get_fs => apply traces_get_fs
  | |- traces _ _ (set_fs _) => apply traces_set_fs
  | |- traces _ _ (match ?x with _ => _ end) => destruct x
  | |- _ => exact I
  | |- forall _, _ => intro
  end.

Ltac trace_prim := repeat trace_step.

Section FsTraces.
Variable P : Event -> Prop.
Hypothesis fs_events : forall op p, P (EvFs op p).
Hypothesis spinner_events : forall op text, P (EvSpinner op text).
Hypothesis clone_events : forall url dest, P (EvClone url dest).

Local Abbreviation quiet := (traces P (fun _ => True)).

Lemma traces_pathExists (p : path) : quiet (pathExists p).
Proof. unfold pathExists. trace_prim; auto. Qed.

Lemma traces_readFile (p : path) : quiet (readFile p).
Proof. unfold readFile. trace_prim; auto. Qed.

Lemma traces_write_at (op : FsOp) (p : path) (f : option string -> string) :
  quiet (write_at op p f).
Proof. unfold write_at. trace_prim; auto. Qed.

Lemma traces_ensureDir (p : path) : quiet (ensureDir p).
Proof. unfold ensureDir. trace_prim; auto. Qed.

Lemma traces_copy (src dst : path) : quiet (copy src dst).
Proof. unfold copy. trace_prim; auto. Qed.

Lemma traces_readdir (p : path) : quiet (readdir p).
Proof. unfold readdir. trace_prim; auto. Qed.

Lemma traces_stat (p : path) : quiet (stat_isDirectory p).
Proof. unfold stat_isDirectory. trace_prim; auto. Qed.

Lemma traces_git_clone (env : Env) (url : string) (dest : path) :
  quiet (git_clone env url dest).
Proof. unfold git_clone. trace_prim; auto. Qed.

Lemma traces_spinner (op : SpinnerOp) (text : string) : quiet (spinner op text).
Proof. unfold spinner. trace_prim; auto. Qed.

Lemma traces_mergeStyles_at (g cp : path) : quiet (mergeStyles_at g cp).
Proof.
  unfold mergeStyles_at.
  eapply traces_bind; [apply traces_pathExists | intros [] _]; [|now apply traces_ret].
  eapply traces_bind; [apply traces_readFile | intros f _].
  eapply traces_bind; [apply traces_readFile | intros gs _].
  destruct (negb _); [apply traces_write_at | now apply traces_ret].
Qed.
End FsTraces.

(** ** The catalog lister *)

Lemma offers_fs (op : FsOp) (p : path) : offers_components (EvFs op p).
Proof. exact I. Qed.
Lemma offers_spinner (op : SpinnerOp) (text : string) :
  offers_components (EvSpinner op text).
Proof. exact I. Qed.
Lemma offers_clone (url : string) (dest : path) : offers_components (EvClone url dest).
Proof. exact I. Qed.

#[local] Hint Resolve offers_fs offers_spinner offers_clone : core.

Section Lister.
Variable env : Env.

Lemma is_component_sound (name : string) :
  traces offers_components (fun b => b = true -> component_name name)
         (Part001.is_component env name).
Proof.
  unfold Part001.is_component, component_name.
  destruct (startsWith name ".") eqn:Hidden.
  { apply traces_ret. discriminate. }
  destruct (array_includes Part001.reserved name) eqn:Reserved.
  { apply traces_ret. discriminate. }
  eapply traces_weaken; [|apply traces_stat; auto].
  intros b _ _. split; [reflexivity|].
  unfold array_includes, Part001.reserved in Reserved. simpl in Reserved.
  repeat split; intros ->; simpl in Reserved; discriminate.
Qed.

Lemma filter_components (items : list string) :
  traces offers_components (Forall component_name)
         (filterM (Part001.is_component env) items).
Proof.
  induction items as [|x rest IH]; simpl.
  - apply traces_ret. constructor.
  - eapply traces_bind; [apply is_component_sound | intros b Hb].
    eapply traces_bind; [apply IH | intros ys Hys].
    apply traces_ret. destruct b; auto.
Qed.

Lemma list_catalog_sound :
  traces offers_components (Forall component_name) (Part001.list_catalog env).
Proof.
  unfold Part001.list_catalog.
  eapply traces_bind; [apply traces_ensureDir; auto | intros _ _].
  eapply traces_bind; [apply traces_git_clone; auto | intros _ _].
  eapply traces_bind; [apply traces_readdir; auto | intros items _].
  apply filter_components.
Qed.

Lemma list_install_quiet (component : string) :
  traces offers_components (fun _ => True) (Part001.list_install env component).
Proof.
  unfold Part001.list_install.
  eapply traces_bind; [apply traces_ensureDir; auto | intros _ _].
  eapply traces_bind; [apply traces_copy; auto | intros _ _].
  eapply traces_bind; [|intros _ _; apply traces_spinner; auto].
  rewrite mergeStyles_v2. apply traces_mergeStyles_at; auto.
Qed.

Lemma list_body_sound :
  traces offers_components (fun _ => True) (Part001.list_body env).
Proof.
  unfold Part001.list_body.
  eapply traces_bind; [apply list_catalog_sound | intros components Ok].
  eapply traces_bind; [apply traces_spinner; auto | intros _ _].
  destruct components as [|c rest]; [apply traces_spinner; auto|].
  eapply (@traces_bind _ _ _ (fun _ => True)).
  - unfold prompts_select.
    eapply (@traces_bind _ _ _ (fun _ => True)).
    + apply traces_emit; [exact Ok | exact I].
    + intros _ _. now apply traces_ret.
  - intros choice _. destruct (picked choice); [apply list_install_quiet|].
    now apply traces_ret.
Qed.

Lemma cleaned_offers (st : State) :
  exists evs, log (cleaned env st) = (log st ++ evs)%list /\
              Forall offers_components evs.
Proof.
  unfold cleaned.
  destruct (exists_at _ _); [destruct (remove_fails env)|]; simpl;
    eexists; split; try reflexivity; repeat constructor.
Qed.

(** X18.  Every prompt that [list] of part_001 opens offers component names
    only: no hidden entry, and none of [styles], [package.json],
    [node_modules]. *)
Lemma list_v2_offers_components (st : State) (choices : list string) :
  In (EvPrompt choices) (log (exec (Part001.list env) st)) ->
  In (EvPrompt choices) (log st) \/ Forall component_name choices.
Proof.
  run_command. intros H.
  destruct (cleaned_offers
              (settled "Failed to fetch components: "
                 (Part001.list_body env
                    (logged (EvSpinner Start "Fetching components...") st))))
    as (evs3 & L3 & F3).
  rewrite L3 in H. clear L3.
  destruct (list_body_sound (logged (EvSpinner Start "Fetching components...") st))
    as [(evs2 & L2 & F2) _].
  assert (L : exists evs,
             log (settled "Failed to fetch components: "
                    (Part001.list_body env
                       (logged (EvSpinner Start "Fetching components...") st)))
             = (log st ++ evs)%list /\ Forall offers_components evs).
  { destruct (Part001.list_body env _) as [[[]|e] s]; simpl in *.
    - exists (EvSpinner Start "Fetching components..." :: evs2).
      rewrite L2, <- app_assoc. split; [reflexivity|]. constructor; auto.
    - exists (EvSpinner Start "Fetching components..." ::
              evs2 ++ [EvSpinner Fail ("Failed to fetch components: " ++ errorMessage e)])%list.
      rewrite L2, <- !app_assoc. split; [reflexivity|].
      constructor; auto. apply Forall_app; split; auto. }
  destruct L as (evs & L & F). rewrite L in H.
  apply in_app_or in H as [H|H]; [apply in_app_or in H as [H|H]|]; auto.
  - right. rewrite Forall_forall in F. exact (F _ H).
  - right. rewrite Forall_forall in F3. exact (F3 _ H).
Qed.
End Lister.

(** X19.  With part_001, a catalog that yields no component name makes
    [list] stop the spinner, say so, and clean up: no prompt is opened,
    nothing is copied, and no failure is reported. *)
Lemma list_v2_empty_catalog (env : Env) (st s : State) :
  Part001.list_catalog env (logged (EvSpinner Start "Fetching components...") st)
    = (Normal [], s) ->
  completion (Part001.list env) st = Normal tt /\
  exec (Part001.list env) st =
  cleaned env
    (mkState (fs s)
       (log s ++ [EvSpinner Stop EmptyString;
                  EvSpinner Info "No components available"])%list).
Proof.
  intros Catalog. run_command. split; [reflexivity|].
  unfold Part001.list_body. rewrite run_bind, Catalog.
  unfold settled, spinner, bind, emit; simpl.
  rewrite <- app_assoc. reflexivity.
Qed.

(** C7.  [list] of index.ts passes to the prompt whatever [readdir] returns
    for the catalog directory: the styles directory, the manifest, the
    dependency cache and a hidden entry are all offered, and the first of
    them, once picked, is installed as a component.  ([list] of part_001
    filters them out: [list_v2_offers_components].) *)
Theorem list_v1_offers_reserved_entries :
  let final := exec (PackagesCli.list Sample.env) Sample.bare in
  In (EvPrompt ["styles"; "package.json"; "node_modules"; ".turbo"; "button"; "card"])
     (log final) /\
  lookup ["home"; "app"; "components"; "styles"; "globals.css"] (fs final)
    = Some (File "@tailwind base;") /\
  In (EvPrompt ["button"; "card"])
     (log (exec (Part001.list Sample.env) Sample.bare)).
Proof. vm_compute. intuition. Qed.

(** C8.  [list] of index.ts has no branch for an empty catalog: with a
    catalog directory that holds nothing it opens the prompt on no choice at
    all and never says that no components are available.  ([list] of
    part_001 does: [list_v2_empty_catalog].) *)
Theorem list_v1_prompts_on_empty_catalog :
  let final_v1 := exec (PackagesCli.list Sample.env_empty) Sample.bare in
  let final_v2 := exec (Part001.list Sample.env_empty) Sample.bare in
  In (EvPrompt []) (log final_v1) /\
  ~ In (EvSpinner Info "No components available") (log final_v1) /\
  In (EvSpinner Info "No components available") (log final_v2) /\
  ~ In (EvPrompt []) (log final_v2).
Proof.
  vm_compute. repeat split; intuition discriminate.
Qed.

(* ================================================================= *)
(** * Further properties *)

(** ** The manifest update, applied again *)

Section AssocMore.
Context {A : Type}.
Implicit Types (l : list (string * A)) (k : string).

Lemma set_assoc_same k v l : assoc k l = Some v -> set_assoc k v l = l.
Proof.
  induction l as [|[k0 v0] l IH]; simpl; [discriminate|].
  destruct (String.eqb_spec k k0) as [->|N].
  - intros E. injection E as ->. reflexivity.
  - intros E. now rewrite IH.
Qed.

Lemma set_assoc_keys_present k v v0 l :
  assoc k l = Some v0 -> map fst (set_assoc k v l) = map fst l.
Proof.
  induction l as [|[k1 v1] l IH]; simpl; [discriminate|].
  destruct (String.eqb_spec k k1) as [->|N]; simpl; [reflexivity|].
  intros E. now rewrite IH.
Qed.

Lemma set_assoc_keys_absent k v l :
  assoc k l = None -> map fst (set_assoc k v l) = (map fst l ++ [k])%list.
Proof.
  induction l as [|[k1 v1] l IH]; simpl; [reflexivity|].
  destruct (String.eqb_spec k k1) as [->|N]; simpl; [discriminate|].
  intros E. now rewrite IH.
Qed.
End AssocMore.

Lemma default_object_keys (k : string) (fields : list (string * Json)) :
  keys (default_object k fields) = (keys fields ++ missing k fields)%list.
Proof.
  unfold default_object, keys, missing.
  destruct (assoc k fields) as [v|] eqn:E.
  - rewrite app_nil_r. destruct (truthy (Some v)); [reflexivity|].
    eapply set_assoc_keys_present; eauto.
  - simpl. now apply set_assoc_keys_absent.
Qed.

Lemma default_object_present (k : string) (fields : list (string * Json)) :
  exists v, assoc k (default_object k fields) = Some v /\ truthy (Some v) = true.
Proof.
  rewrite default_object_self.
  destruct (truthy (assoc k fields)) eqn:T.
  - destruct (assoc k fields) as [v|]; [eauto | discriminate].
  - eauto.
Qed.

(** X1.  The manifest update of [init] is idempotent: applied to a manifest
    it has already updated, it changes nothing (so a second [init] writes
    the same fields again). *)
Theorem update_fields_idempotent (fields : list (string * Json)) :
  update_fields (update_fields fields) = update_fields fields.
Proof.
  unfold update_fields at 1.
  set (u := update_fields fields).
  assert (Dev : exists dev,
            assoc "devDependencies" u = Some (JObj dev) /\
            assoc "tailwindcss" dev = Some (JStr "^3.4.0") /\
            assoc "postcss" dev = Some (JStr "^8.4.0") /\
            assoc "autoprefixer" dev = Some (JStr "^10.4.0")).
  { subst u. unfold update_fields. eexists. split; [apply assoc_set_eq|].
    simpl fold_left. repeat split.
    - rewrite !assoc_set_neq by discriminate. apply assoc_set_eq.
    - rewrite assoc_set_neq by discriminate. apply assoc_set_eq.
    - apply assoc_set_eq. }
  assert (Dep : truthy (assoc "dependencies" u) = true).
  { subst u. unfold update_fields. rewrite assoc_set_neq by discriminate.
    rewrite default_object_other by discriminate.
    destruct (default_object_present "dependencies" fields) as (v & -> & T). exact T. }
  destruct Dev as (dev & Du & T1 & T2 & T3).
  assert (E1 : default_object "dependencies" u = u).
  { unfold default_object. now rewrite Dep. }
  rewrite E1.
  assert (E2 : default_object "devDependencies" u = u).
  { unfold default_object. now rewrite Du. }
  rewrite E2, Du. simpl spread. simpl fold_left.
  rewrite (set_assoc_same _ _ _ T1), (set_assoc_same _ _ _ T2),
          (set_assoc_same _ _ _ T3).
  now apply set_assoc_same.
Qed.

(** X2.  The manifest update drops no field and moves none: the fields that
    were there keep their order, and [dependencies] and [devDependencies],
    in this order, are put at the end when they were missing. *)
Theorem update_fields_keeps_order (fields : list (string * Json)) :
  keys (update_fields fields) =
  (keys fields ++ missing "dependencies" fields
               ++ missing "devDependencies" fields)%list.
Proof.
  unfold update_fields.
  destruct (default_object_present "devDependencies"
              (default_object "dependencies" fields)) as (v & E & _).
  unfold keys at 1. rewrite (set_assoc_keys_present _ _ _ _ E).
  fold (keys (default_object "devDependencies" (default_object "dependencies" fields))).
  rewrite !default_object_keys, <- app_assoc.
  unfold missing at 2. rewrite default_object_other by discriminate.
  reflexivity.
Qed.

(** ** Computations that only read *)

Lemma readonly_ret {A : Type} (a : A) : readonly (ret a).
Proof. intros st. reflexivity. Qed.

Lemma readonly_throw {A : Type} (e : Error) : readonly (@throw A e).
Proof. intros st. reflexivity. Qed.

Lemma readonly_emit (e : Event) : readonly (emit e).
Proof. intros st. reflexivity. Qed.

Lemma readonly_bind {A B : Type} (m : M A) (k : A -> M B) :
  readonly m -> (forall a, readonly (k a)) -> readonly (bind m k).
Proof.
  intros Hm Hk st. unfold bind. specialize (Hm st).
  destruct (m st) as [[a|e] s]; simpl in *; auto.
  now rewrite Hk.
Qed.

Lemma readonly_try_catch {A : Type} (m : M A) (h : Error -> M A) :
  readonly m -> (forall e, readonly (h e)) -> readonly (try_catch m h).
Proof.
  intros Hm Hh st. unfold try_catch. specialize (Hm st).
  destruct (m st) as [[a|e] s]; simpl in *; auto.
  now rewrite Hh.
Qed.

Lemma readonly_pathExists (p : path) : readonly (pathExists p).
Proof. intros st. reflexivity. Qed.

Lemma readonly_readFile (p : path) : readonly (readFile p).
Proof. intros st. now rewrite run_readFile. Qed.

Lemma readonly_readJson (env : Env) (p : path) : readonly (readJson env p).
Proof.
  intros st. unfold readJson, bind, emit, get_fs; simpl.
  destruct (lookup p (fs st)) as [[c|es]|]; simpl; auto.
  destruct (parse env c); reflexivity.
Qed.

Lemma readonly_readdir (p : path) : readonly (readdir p).
Proof.
  intros st. unfold readdir, bind, emit, get_fs; simpl.
  destruct (lookup p (fs st)) as [[c|es]|]; reflexivity.
Qed.

Lemma readonly_stat (p : path) : readonly (stat_isDirectory p).
Proof.
  intros st. unfold stat_isDirectory, bind, emit, get_fs; simpl.
  destruct (lookup p (fs st)); reflexivity.
Qed.

Lemma readonly_get_prop (o : Json) (k : string) : readonly (get_prop o k).
Proof. intros st. destruct o; reflexivity. Qed.

Lemma readonly_console_warn (text : string) : readonly (console_warn text).
Proof. intros st. reflexivity. Qed.

Lemma readonly_checkProjectConfig (env : Env) :
  readonly (Part001.checkProjectConfig env).
Proof.
  apply readonly_bind; [apply readonly_pathExists|].
  intros []; [apply readonly_ret | apply readonly_throw].
Qed.

(** ** The version check of index.ts *)

Lemma readonly_checkVersion (env : Env) : readonly (PackagesCli.checkVersion env).
Proof.
  apply readonly_try_catch; [|intros; apply readonly_console_warn].
  apply readonly_bind; [apply readonly_readJson | intros a].
  apply readonly_bind; [apply readonly_readJson | intros b].
  apply readonly_bind; [apply readonly_get_prop | intros va].
  apply readonly_bind; [apply readonly_get_prop | intros vb].
  destruct (strict_neq va vb); [apply readonly_console_warn | apply readonly_ret].
Qed.


(** X3.  [checkVersion] is informational only: it never throws and never
    changes the file tree, whatever the two manifests are; and when the
    fetched manifest cannot be read at all, the only thing it does is to
    warn that the versions could not be checked. *)
Theorem checkVersion_never_fails (env : Env) (st : State) :
  completion (PackagesCli.checkVersion env) st = Normal tt /\
  fs (exec (PackagesCli.checkVersion env) st) = fs st /\
  (lookup (path_join (PackagesCli.TEMP_DIR env) ["package.json"]) (fs st) = None ->
   log (exec (PackagesCli.checkVersion env) st) =
   (log st ++ [EvFs ReadJson (path_join (PackagesCli.TEMP_DIR env) ["package.json"]);
               EvWarn "Unable to check versions"])%list).
Proof.
  split; [|split].
  - unfold completion, PackagesCli.checkVersion, try_catch.
    match goal with |- fst (match ?m with _ => _ end) = _ =>
      destruct m as [[[]|e] s] end; reflexivity.
  - apply readonly_checkVersion.
  - intros L. unfold exec, PackagesCli.checkVersion, try_catch.
    rewrite run_bind.
    assert (R : readJson env (path_join (PackagesCli.TEMP_DIR env) ["package.json"]) st
                = (Throw (FsErr "ENOENT" (path_join (PackagesCli.TEMP_DIR env) ["package.json"])),
                   logged (EvFs ReadJson (path_join (PackagesCli.TEMP_DIR env) ["package.json"])) st)).
    { unfold readJson, bind, emit, get_fs, logged; simpl. now rewrite L. }
    rewrite R. unfold console_warn, emit, logged; simpl.
    rewrite <- app_assoc. reflexivity.
Qed.



(** ** The dependency check *)

Lemma plain_join (base : path) (dirs : list string) (name : string) :
  plain name ->
  Forall plain dirs ->
  path_join base (dirs ++ [name])%list = (base ++ dirs ++ [name])%list.
Proof.
  intros Hn Hd. unfold path_join.
  assert (G : forall (names : list string) (stack : list string),
             Forall plain names ->
             normalize stack (flat_map (split_on "/") names)
             = (rev stack ++ names)%list).
  { induction names as [|x names IH]; intros stack F.
    - simpl. now rewrite app_nil_r.
    - inversion F as [|? ? (Sx & N1 & N2 & N3) F']; subst.
      simpl flat_map. rewrite Sx. simpl app. simpl normalize.
      apply String.eqb_neq in N1, N2, N3. rewrite N1, N2, N3. simpl.
      rewrite IH by assumption. simpl. now rewrite <- app_assoc. }
  rewrite G, rev_involutive; [reflexivity|].
  apply Forall_app. split; [assumption | now constructor].
Qed.

Ltac plain_norm H :=
  let S := fresh "S" in
  let N1 := fresh "N" in
  let N2 := fresh "N" in
  let N3 := fresh "N" in
  destruct H as (S & N1 & N2 & N3);
  apply String.eqb_neq in N1, N2, N3;
  unfold path_join; simpl flat_map; rewrite ?S; simpl;
  rewrite ?N1, ?N2, ?N3; simpl;
  rewrite ?N1, ?N2, ?N3; simpl;
  rewrite ?rev_involutive, <- ?app_assoc; simpl; try reflexivity.

Lemma types_path_plain (env : Env) (component : string) :
  plain component ->
  path_join (path_join (Part001.TEMP_DIR env) ["components"; component]) ["types.ts"]
  = (cwd env ++ [".solo-ui-temp"; "components"; component; "types.ts"])%list.
Proof.
  intros H. rewrite temp_path.
  assert (E : path_join (cwd env ++ [".solo-ui-temp"])%list ["components"; component]
              = (cwd env ++ [".solo-ui-temp"; "components"; component])%list).
  { plain_norm H; rewrite ?rev_app_distr; simpl;
      rewrite ?rev_involutive, <- ?app_assoc; reflexivity. }
  rewrite E. path_norm.
Qed.

Lemma component_path_plain_v2 (env : Env) (component : string) :
  plain component ->
  Part001.componentPath env component
  = (cwd env ++ [".solo-ui-temp"; "packages"; "components"; component])%list.
Proof.
  intros H. unfold Part001.componentPath. rewrite temp_path.
  plain_norm H; rewrite ?rev_app_distr; simpl;
    rewrite ?rev_involutive, <- ?app_assoc; reflexivity.
Qed.

Lemma target_path_plain_v2 (env : Env) (component : string) :
  plain component ->
  Part001.targetPath env component
  = (cwd env ++ ["src"; "components"; component])%list.
Proof. intros H. unfold Part001.targetPath. plain_norm H. Qed.

(** X5.  The dependency check is a stub that only reads: it never changes
    the file tree, never looks at what [types.ts] contains, and throws in
    one case only, when [types.ts] is a directory.  For a component name of
    one segment the file it looks for is
    [.solo-ui-temp/components/<name>/types.ts], which in part_001 is not
    below the directory the component is installed from. *)
Theorem checkComponentDependencies_reads_only
  (env : Env) (component : string) (st : State) :
  let typesPath :=
    path_join (path_join (Part001.TEMP_DIR env) ["components"; component])
              ["types.ts"] in
  let outcome :=
    if is_dir (lookup typesPath (fs st)) then Throw (FsErr "EISDIR" typesPath)
    else Normal tt in
  (fs (exec (Part001.checkComponentDependencies env component) st) = fs st /\
   completion (Part001.checkComponentDependencies env component) st = outcome /\
   fs (exec (PackagesCli.checkComponentDependencies env component) st) = fs st /\
   completion (PackagesCli.checkComponentDependencies env component) st = outcome) /\
  (plain component ->
   typesPath = (cwd env ++ [".solo-ui-temp"; "components"; component; "types.ts"])%list /\
   Part001.componentPath env component
   = (cwd env ++ [".solo-ui-temp"; "packages"; "components"; component])%list /\
   is_prefix (Part001.componentPath env component) typesPath = false).
Proof.
  intros typesPath outcome.
  assert (Run : fs (exec (Part001.checkComponentDependencies env component) st) = fs st /\
                completion (Part001.checkComponentDependencies env component) st = outcome).
  { subst outcome. unfold exec, completion, Part001.checkComponentDependencies.
    fold typesPath. rewrite run_bind, run_pathExists. unfold exists_at.
    destruct (lookup typesPath (fs st)) as [[c|es]|] eqn:L; simpl.
    - rewrite run_bind, run_readFile. simpl fs. rewrite L. auto.
    - rewrite run_bind, run_readFile. simpl fs. rewrite L. auto.
    - auto. }
  split; [tauto|].
  intros H. subst typesPath.
  rewrite (types_path_plain env component H), (component_path_plain_v2 env component H).
  repeat split.
  induction (cwd env) as [|x c IH]; simpl; [reflexivity|].
  now rewrite String.eqb_refl.
Qed.

(** ** Cleaning up *)

Lemma cleaned_twice (env : Env) (st : State) :
  fs (cleaned env (cleaned env st)) = fs (cleaned env st).
Proof.
  unfold cleaned at 1.
  destruct (exists_at (Part001.TEMP_DIR env) (fs (cleaned env st))) eqn:E;
    [|reflexivity].
  destruct (remove_fails env) eqn:R; [reflexivity|].
  unfold exists_at in E. rewrite cleaned_no_scratch in E by assumption. discriminate.
Qed.

(** X6.  [cleanupTemp] never throws; it touches nothing but the scratch
    directory (every path that parts ways with the scratch path is as
    before, and without a scratch directory the tree is unchanged); and a
    second cleanup finds nothing left to do. *)
Theorem cleanupTemp_only_scratch (env : Env) (st : State) :
  let cleanup := Part001.cleanupTemp env in
  completion cleanup st = Normal tt /\
  completion (PackagesCli.cleanupTemp env) st = Normal tt /\
  (forall q, diverge (Part001.TEMP_DIR env) q = true ->
             lookup q (fs (exec cleanup st)) = lookup q (fs st)) /\
  (exists_at (Part001.TEMP_DIR env) (fs st) = false -> fs (exec cleanup st) = fs st) /\
  fs (exec cleanup (exec cleanup st)) = fs (exec cleanup st).
Proof.
  cbv zeta. unfold completion, exec.
  change (PackagesCli.cleanupTemp env) with (Part001.cleanupTemp env).
  repeat (rewrite run_cleanupTemp; simpl fst; simpl snd).
  repeat split.
  - intros q D. now apply cleaned_keeps.
  - intros E. unfold cleaned. now rewrite E.
  - apply cleaned_twice.
Qed.

(** ** The style merger, on any state *)

Lemma mergeStyles_at_cases (g cp : path) (st : State) :
  g <> [] ->
  fs (exec (mergeStyles_at g cp) st) = fs st \/
  exists f gs t',
    lookup (path_join cp ["styles.css"]) (fs st) = Some (File f) /\
    lookup g (fs st) = Some (File gs) /\
    includes gs f = false /\
    place g (File (gs ++ newline ++ f)) (Some (fs st)) = Some t' /\
    fs (exec (mergeStyles_at g cp) st) = t'.
Proof.
  intros N. unfold exec.
  destruct (exists_at (path_join cp ["styles.css"]) (fs st)) eqn:E.
  2:{ left. now rewrite mergeStyles_at_skips. }
  unfold mergeStyles_at.
  rewrite run_bind, run_pathExists, E.
  rewrite run_bind, run_readFile. simpl fs.
  destruct (lookup (path_join cp ["styles.css"]) (fs st)) as [[f|es]|] eqn:Lf;
    [| left; reflexivity | left; reflexivity].
  rewrite run_bind, run_readFile. simpl fs.
  destruct (lookup g (fs st)) as [[gs|es]|] eqn:Lg;
    [| left; reflexivity | left; reflexivity].
  destruct (includes gs f) eqn:I; [left; reflexivity|]. simpl negb. cbv iota.
  destruct (place_exists g (File (gs ++ newline ++ f)) (fs st)) as [t' Ht'].
  { unfold exists_at. now rewrite Lg. }
  right. exists f, gs, t'. repeat split; auto.
  cbn [negb].
  erewrite run_appendFile_file; simpl; eauto.
Qed.

Lemma global_not_root_v1 (env : Env) : PackagesCli.globalStylePath env <> [].
Proof. rewrite global_path_v1. intros E. apply app_eq_nil in E as [_ E]. discriminate. Qed.

Lemma global_not_root_v2 (env : Env) : Part001.globalStylePath env <> [].
Proof. rewrite global_path_v2. intros E. apply app_eq_nil in E as [_ E]. discriminate. Qed.

Lemma append_only_at (g cp : path) (st : State) :
  g <> [] ->
  (forall old,
     lookup g (fs st) = Some (File old) ->
     exists suffix,
       lookup g (fs (exec (mergeStyles_at g cp) st)) = Some (File (old ++ suffix))) /\
  (forall q text,
     q <> g ->
     lookup q (fs st) = Some (File text) ->
     lookup q (fs (exec (mergeStyles_at g cp) st)) = Some (File text)).
Proof.
  intros N.
  destruct (mergeStyles_at_cases g cp st N) as [Same | (f & gs & t' & Lf & Lg & I & P & E)].
  - rewrite Same. split.
    + intros old L. exists EmptyString. now rewrite append_empty_r.
    + auto.
  - rewrite E. split.
    + intros old L. rewrite Lg in L. injection L as <-.
      exists (newline ++ f). eapply place_lookup; eauto.
    + intros q text Nq L. exact (place_file_frame g q gs _ text _ _ Lg P L Nq).
Qed.

(** X7.  [mergeStyles] is append-only and writes one file: whatever the
    state, the text the global stylesheet held is a prefix of the text it
    holds afterwards, and every other regular file holds what it held. *)
Theorem mergeStyles_append_only (env : Env) (componentPath : path) (st : State) :
  (forall old,
     lookup (Part001.globalStylePath env) (fs st) = Some (File old) ->
     exists suffix,
       lookup (Part001.globalStylePath env)
              (fs (exec (Part001.mergeStyles env componentPath) st))
       = Some (File (old ++ suffix))) /\
  (forall q text,
     q <> Part001.globalStylePath env ->
     lookup q (fs st) = Some (File text) ->
     lookup q (fs (exec (Part001.mergeStyles env componentPath) st))
     = Some (File text)) /\
  (forall old,
     lookup (PackagesCli.globalStylePath env) (fs st) = Some (File old) ->
     exists suffix,
       lookup (PackagesCli.globalStylePath env)
              (fs (exec (PackagesCli.mergeStyles env componentPath) st))
       = Some (File (old ++ suffix))) /\
  (forall q text,
     q <> PackagesCli.globalStylePath env ->
     lookup q (fs st) = Some (File text) ->
     lookup q (fs (exec (PackagesCli.mergeStyles env componentPath) st))
     = Some (File text)).
Proof.
  rewrite mergeStyles_v1, mergeStyles_v2.
  destruct (append_only_at _ componentPath st (global_not_root_v2 env)) as [A2 F2].
  destruct (append_only_at _ componentPath st (global_not_root_v1 env)) as [A1 F1].
  auto.
Qed.

(** ** The catalog lister as a filter *)

Lemma bind_normal {A B : Type} (m : M A) (k : A -> M B) (st s : State) (b : B) :
  bind m k st = (Normal b, s) ->
  exists a s1, m st = (Normal a, s1) /\ k a s1 = (Normal b, s).
Proof.
  unfold bind. destruct (m st) as [[a|e] s1]; [eauto | discriminate].
Qed.

Section ListerFilter.
Variable env : Env.

Lemma is_component_spec (name : string) (st s : State) (b : bool) :
  Part001.is_component env name st = (Normal b, s) ->
  fs s = fs st /\ b = offered env (fs st) name.
Proof.
  unfold Part001.is_component, offered.
  destruct (startsWith name "."); cbn [negb andb].
  { intros E. unfold ret in E. injection E as <- <-. auto. }
  destruct (array_includes Part001.reserved name); cbn [negb andb].
  { intros E. unfold ret in E. injection E as <- <-. auto. }
  unfold stat_isDirectory, bind, emit, get_fs, ret, throw; cbn [fs fst snd].
  destruct (lookup (path_join (Part001.componentsDir env) [name]) (fs st))
    as [n|]; [|discriminate].
  intros E. injection E as <- <-. auto.
Qed.

Lemma filterM_spec (items : list string) (st s : State) (names : list string) :
  filterM (Part001.is_component env) items st = (Normal names, s) ->
  fs s = fs st /\ names = filter (offered env (fs st)) items.
Proof.
  revert st s names. induction items as [|x rest IH]; intros st s names; simpl.
  - intros E. unfold ret in E. injection E as <- <-. auto.
  - intros E.
    apply bind_normal in E as (b & s1 & Ex & E).
    apply bind_normal in E as (ys & s2 & Er & E).
    unfold ret in E. injection E as <- <-.
    apply is_component_spec in Ex as [F1 ->].
    apply IH in Er as [F2 ->]. rewrite F1 in *.
    split; [assumption|]. destruct (offered env (fs st) x); reflexivity.
Qed.
End ListerFilter.

(** X8.  When the lister of part_001 returns, what it returns is the
    directory listing of the fetched catalog, in the listing's order,
    filtered: an entry is kept exactly when its name does not start with a
    dot, is none of [styles], [package.json], [node_modules], and it is a
    directory. *)
Theorem list_catalog_is_filter (env : Env) (st s : State) (names : list string) :
  Part001.list_catalog env st = (Normal names, s) ->
  exists entries,
    lookup (Part001.componentsDir env) (fs s) = Some (Dir entries) /\
    names = filter (offered env (fs s)) (map fst entries).
Proof.
  unfold Part001.list_catalog. intros E.
  apply bind_normal in E as (u1 & s1 & _ & E).
  apply bind_normal in E as (u2 & s2 & _ & E).
  apply bind_normal in E as (items & s3 & Rd & E).
  apply filterM_spec in E as [F ->].
  unfold readdir, bind, emit, get_fs, ret, throw in Rd; simpl in Rd.
  destruct (lookup (Part001.componentsDir env) (fs s2)) as [[c|entries]|] eqn:L;
    try discriminate.
  injection Rd as <- <-. simpl in F. rewrite F.
  exists entries. auto.
Qed.

Lemma list_catalog_is_filter_witness :
  exists entries,
    lookup (Part001.componentsDir Sample.env)
           (fs (snd (Part001.list_catalog Sample.env Sample.bare)))
      = Some (Dir entries) /\
    ["button"; "card"] =
    filter (offered Sample.env (fs (snd (Part001.list_catalog Sample.env Sample.bare))))
           (map fst entries).
Proof.
  exact (list_catalog_is_filter Sample.env Sample.bare _ ["button"; "card"] eq_refl).
Defined.

(** ** Creating the scratch directory and removing it again *)

Section AssocRoundTrip.
Context {A : Type}.
Implicit Types (l : list (string * A)) (k : string).

Lemma del_assoc_absent k l : assoc k l = None -> del_assoc k l = l.
Proof.
  induction l as [|[k0 v0] l IH]; simpl; [reflexivity|].
  destruct (k =? k0); [discriminate|]. intros E. now rewrite IH.
Qed.

Lemma del_set_assoc k v l : del_assoc k (set_assoc k v l) = del_assoc k l.
Proof.
  induction l as [|[k0 v0] l IH]; simpl.
  - now rewrite String.eqb_refl.
  - destruct (k =? k0) eqn:E; simpl; rewrite ?String.eqb_refl, ?E; [reflexivity|].
    now rewrite IH.
Qed.

Lemma set_assoc_twice k v w l : set_assoc k v (set_assoc k w l) = set_assoc k v l.
Proof.
  induction l as [|[k0 v0] l IH]; simpl.
  - now rewrite String.eqb_refl.
  - destruct (k =? k0) eqn:E; simpl; rewrite ?String.eqb_refl, ?E; [reflexivity|].
    now rewrite IH.
Qed.
End AssocRoundTrip.

Lemma rm_absent (p : path) (t : Node) : lookup p t = None -> rm p t = t.
Proof.
  revert t; induction p as [|s p IH]; intros t L; [discriminate|].
  destruct t as [c|es]; [reflexivity|]. simpl in L |- *.
  destruct p as [|s' p].
  - destruct (assoc s es) eqn:E; [discriminate|]. now rewrite del_assoc_absent.
  - destruct (assoc s es) as [c|] eqn:E; [|reflexivity].
    rewrite (IH _ L). now rewrite set_assoc_same.
Qed.

(** Putting something directly below an existing directory and removing it
    amounts to removing what was there. *)
Lemma rm_place_below (c : path) (s : string) (x : Node) (t t' : Node) :
  is_dir (lookup c t) = true ->
  place (c ++ [s])%list x (Some t) = Some t' ->
  is_dir (lookup c t') = true /\
  rm (c ++ [s])%list t' = rm (c ++ [s])%list t.
Proof.
  revert t t'; induction c as [|a c IH]; intros t t' D P.
  - destruct t as [f|es]; [discriminate|]. simpl in P. injection P as <-.
    simpl. now rewrite del_set_assoc.
  - destruct t as [f|es]; [discriminate|]. simpl in D, P.
    destruct (assoc a es) as [child|] eqn:Ea; [|discriminate].
    destruct (place (c ++ [s])%list x (Some child)) as [child'|] eqn:Pc; [|discriminate].
    injection P as <-.
    destruct (IH _ _ D Pc) as [D' R].
    split.
    + simpl. now rewrite assoc_set_eq.
    + simpl. destruct (c ++ [s])%list as [|y ys] eqn:Ec.
      { destruct c; discriminate. }
      rewrite assoc_set_eq, Ea, R. now rewrite set_assoc_twice.
Qed.

Section ScratchOnly.
Variable env : Env.

Lemma upto_scratch_refl (t : Node) : upto_scratch env t t.
Proof. intros D. auto. Qed.

Lemma upto_scratch_trans (t1 t2 t3 : Node) :
  upto_scratch env t1 t2 -> upto_scratch env t2 t3 -> upto_scratch env t1 t3.
Proof.
  intros H12 H23 D. destruct (H12 D) as [D2 E2]. destruct (H23 D2) as [D3 E3].
  split; [assumption | congruence].
Qed.

Lemma scratch_only_readonly {A : Type} (m : M A) : readonly m -> scratch_only env m.
Proof. intros R st. rewrite R. apply upto_scratch_refl. Qed.

Lemma scratch_only_bind {A B : Type} (m : M A) (k : A -> M B) :
  scratch_only env m -> (forall a, scratch_only env (k a)) ->
  scratch_only env (bind m k).
Proof.
  intros Hm Hk st. unfold bind. specialize (Hm st).
  destruct (m st) as [[a|e] s]; simpl in *; auto.
  eapply upto_scratch_trans; [exact Hm | apply Hk].
Qed.

(** What follows a computation that always throws does not matter. *)
Lemma scratch_only_bind_throws {A B : Type} (m : M A) (k : A -> M B) :
  scratch_only env m -> always_throws m -> scratch_only env (bind m k).
Proof.
  intros Hm Ht st. unfold bind. specialize (Hm st). destruct (Ht st) as [e E].
  destruct (m st) as [[a|e'] s]; simpl in *; [discriminate | assumption].
Qed.

Lemma always_throws_bind_l {A B : Type} (m : M A) (k : A -> M B) :
  always_throws m -> always_throws (bind m k).
Proof.
  intros Ht st. unfold bind. destruct (Ht st) as [e E].
  destruct (m st) as [[a|e'] s]; simpl in *; [discriminate | eauto].
Qed.

Lemma always_throws_bind_r {A B : Type} (m : M A) (k : A -> M B) :
  (forall a, always_throws (k a)) -> always_throws (bind m k).
Proof.
  intros Hk st. unfold bind.
  destruct (m st) as [[a|e'] s]; simpl; [apply Hk | eauto].
Qed.

Lemma scratch_only_place (x : Node) (st : State) (t' : Node) :
  place (Part001.TEMP_DIR env) x (Some (fs st)) = Some t' ->
  upto_scratch env (fs st) t'.
Proof.
  intros P D. rewrite temp_path in *. now apply (rm_place_below _ _ x).
Qed.

Lemma scratch_only_ensureDir : scratch_only env (ensureDir (Part001.TEMP_DIR env)).
Proof.
  intros st. unfold ensureDir, bind, emit, get_fs, set_fs; simpl.
  destruct (lookup (Part001.TEMP_DIR env) (fs st)) as [[c|es]|]; simpl;
    try apply upto_scratch_refl.
  destruct (place (Part001.TEMP_DIR env) (Dir []) (Some (fs st))) as [t'|] eqn:P;
    simpl; [|apply upto_scratch_refl].
  now apply (scratch_only_place (Dir []) st).
Qed.

Lemma scratch_only_git_clone (url : string) :
  scratch_only env (git_clone env url (Part001.TEMP_DIR env)).
Proof.
  intros st. unfold git_clone, bind, emit, get_fs, set_fs; simpl.
  assert (Fresh : upto_scratch env (fs st)
            (fs (snd (match remote env with
                      | Some tree =>
                          match place (Part001.TEMP_DIR env) (Dir tree) (Some (fs st)) with
                          | Some t' => fun st0 => (Normal tt, mkState t' (log st0))
                          | None => throw (GitErr "fatal: could not create work tree dir")
                          end
                      | None => throw (GitErr "fatal: unable to access the remote repository")
                      end (mkState (fs st)
                             (log st ++ [EvClone url (Part001.TEMP_DIR env)])%list))))).
  { destruct (remote env) as [tree|]; simpl; try apply upto_scratch_refl.
    destruct (place (Part001.TEMP_DIR env) (Dir tree) (Some (fs st))) as [t'|] eqn:P;
      simpl; [|apply upto_scratch_refl].
    now apply (scratch_only_place (Dir tree) st). }
  destruct (lookup (Part001.TEMP_DIR env) (fs st)) as [[c|[|entry rest]]|]; simpl;
    try apply upto_scratch_refl; exact Fresh.
Qed.

Lemma git_clone_offline (url : string) (dest : path) :
  remote env = None -> always_throws (git_clone env url dest).
Proof.
  intros R st. unfold git_clone, bind, emit, get_fs, throw; simpl. rewrite R.
  destruct (lookup dest (fs st)) as [[c|[|entry rest]]|]; simpl; eauto.
Qed.

Lemma cleaned_fs (st : State) :
  remove_fails env = false ->
  fs (cleaned env st) = rm (Part001.TEMP_DIR env) (fs st).
Proof.
  intros R. unfold cleaned, exists_at. rewrite R.
  destruct (lookup (Part001.TEMP_DIR env) (fs st)) eqn:L; simpl; [reflexivity|].
  now rewrite rm_absent.
Qed.

Lemma settled_fs (prefix : string) (r : Completion unit * State) :
  fs (settled prefix r) = fs (snd r).
Proof. destruct r as [[a|e] s]; reflexivity. Qed.

(** A command whose [try] block writes nowhere but in the scratch directory
    ends with the file tree it started with. *)
Lemma restored (start prefix : string) (body : M unit) (st : State) :
  scratch_only env body ->
  remove_fails env = false ->
  lookup (Part001.TEMP_DIR env) (fs st) = None ->
  is_dir (lookup (cwd env) (fs st)) = true ->
  fs (cleaned env (settled prefix (body (logged (EvSpinner Start start) st)))) = fs st.
Proof.
  intros S R L D.
  rewrite cleaned_fs, settled_fs by assumption.
  destruct (S (logged (EvSpinner Start start) st) D) as [_ E].
  rewrite E. simpl. now apply rm_absent.
Qed.

Lemma readonly_is_component (name : string) : readonly (Part001.is_component env name).
Proof.
  unfold Part001.is_component.
  destruct (startsWith name "."); [apply readonly_ret|].
  destruct (array_includes _ _); [apply readonly_ret | apply readonly_stat].
Qed.

Lemma readonly_filterM (items : list string) :
  readonly (filterM (Part001.is_component env) items).
Proof.
  induction items as [|x rest IH]; simpl; [apply readonly_ret|].
  apply readonly_bind; [apply readonly_is_component | intros b].
  apply readonly_bind; [exact IH | intros ys; apply readonly_ret].
Qed.

Lemma scratch_only_list_catalog_v2 : scratch_only env (Part001.list_catalog env).
Proof.
  unfold Part001.list_catalog.
  apply scratch_only_bind; [apply scratch_only_ensureDir | intros _].
  apply scratch_only_bind; [apply scratch_only_git_clone | intros _].
  apply scratch_only_readonly.
  apply readonly_bind; [apply readonly_readdir | intros items].
  apply readonly_filterM.
Qed.

Lemma scratch_only_list_catalog_v1 : scratch_only env (PackagesCli.list_catalog env).
Proof.
  unfold PackagesCli.list_catalog.
  apply scratch_only_bind; [apply scratch_only_ensureDir | intros _].
  apply scratch_only_bind; [apply scratch_only_git_clone | intros _].
  apply scratch_only_readonly, readonly_readdir.
Qed.

Lemma readonly_checkComponentDependencies (component : string) :
  readonly (Part001.checkComponentDependencies env component).
Proof.
  apply readonly_bind; [apply readonly_pathExists|].
  intros []; [|apply readonly_ret].
  apply readonly_bind; [apply readonly_readFile | intros; apply readonly_ret].
Qed.

Lemma scratch_only_add_prepare_v1 (component : string) :
  scratch_only env (PackagesCli.add_prepare env component).
Proof.
  unfold PackagesCli.add_prepare.
  apply scratch_only_bind;
    [apply scratch_only_readonly, readonly_checkProjectConfig | intros _].
  apply scratch_only_bind; [apply scratch_only_ensureDir | intros _].
  apply scratch_only_bind; [apply scratch_only_git_clone | intros _].
  apply scratch_only_bind;
    [apply scratch_only_readonly, readonly_checkVersion | intros _].
  apply scratch_only_readonly, readonly_checkComponentDependencies.
Qed.

Lemma readonly_prompt_cancelled {B : Type} (choices : list string)
  (k : option string -> M B) :
  choice env = None -> readonly (k None) ->
  readonly (bind (prompts_select env choices) k).
Proof.
  intros C Hk st. unfold prompts_select, bind, emit, ret; simpl. rewrite C.
  apply (Hk (mkState (fs st) (log st ++ [EvPrompt choices])%list)).
Qed.

Lemma scratch_only_list_cancelled_v2 :
  choice env = None -> scratch_only env (Part001.list_body env).
Proof.
  intros C. unfold Part001.list_body.
  apply scratch_only_bind; [apply scratch_only_list_catalog_v2 | intros components].
  apply scratch_only_readonly.
  apply readonly_bind; [apply readonly_emit | intros _].
  destruct components as [|c rest]; [apply readonly_emit|].
  apply readonly_prompt_cancelled; [assumption | apply readonly_ret].
Qed.

Lemma scratch_only_list_cancelled_v1 :
  choice env = None -> scratch_only env (PackagesCli.list_body env).
Proof.
  intros C. unfold PackagesCli.list_body.
  apply scratch_only_bind; [apply scratch_only_list_catalog_v1 | intros components].
  apply scratch_only_readonly.
  apply readonly_bind; [apply readonly_emit | intros _].
  apply readonly_prompt_cancelled; [assumption | apply readonly_ret].
Qed.
End ScratchOnly.

(** X9.  Leaving the prompt of [list] without a choice is a no-op: with no
    scratch directory lying around beforehand, and the removal not refused,
    the file tree after the command is exactly the tree before it, whatever
    the fetch yielded. *)
Theorem list_cancelled_restores_tree (env : Env) (st : State) :
  choice env = None ->
  remove_fails env = false ->
  lookup (Part001.TEMP_DIR env) (fs st) = None ->
  is_dir (lookup (cwd env) (fs st)) = true ->
  fs (exec (Part001.list env) st) = fs st /\
  fs (exec (PackagesCli.list env) st) = fs st.
Proof.
  intros C R L D. split; run_command; apply restored;
    auto using scratch_only_list_cancelled_v1, scratch_only_list_cancelled_v2.
Qed.

Lemma list_cancelled_restores_tree_witness :
  fs (exec (Part001.list More.env_cancel) Sample.bare) = fs Sample.bare.
Proof.
  exact (proj1 (list_cancelled_restores_tree More.env_cancel Sample.bare
                  eq_refl eq_refl eq_refl eq_refl)).
Defined.

(** ** Without a network *)

Lemma fetch_offline (env : Env) (st : State) :
  remote env = None ->
  lookup (Part001.TEMP_DIR env) (fs st) = None ->
  is_dir (lookup (cwd env) (fs st)) = true ->
  exists t1,
    fetch env st =
    (Throw (GitErr "fatal: unable to access the remote repository"),
     mkState t1 (log st ++ [EvFs EnsureDir (Part001.TEMP_DIR env);
                            EvClone REPO_URL (Part001.TEMP_DIR env)])%list).
Proof.
  intros R L D. unfold fetch. rewrite run_bind.
  destruct (place_below (cwd env) ".solo-ui-temp" (Dir []) (fs st) D) as [t1 P1].
  rewrite <- temp_path in P1.
  rewrite (run_ensureDir_new _ _ _ L P1).
  assert (L1 : lookup (Part001.TEMP_DIR env) t1 = Some (Dir [])).
  { eapply place_lookup; eauto. }
  exists t1. unfold git_clone, bind, emit, get_fs, throw; simpl.
  rewrite L1, R. rewrite <- app_assoc. reflexivity.
Qed.

(** X10.  Without a network nothing is left behind: when the clone fails,
    [add] of index.ts and [list] of either entry point end with exactly the
    file tree they started with (no scratch directory lying around
    beforehand, the removal not refused), and [list] reports the error of
    git as its failure. *)
Theorem offline_restores_tree (env : Env) (component : string) (st : State) :
  remote env = None ->
  remove_fails env = false ->
  lookup (Part001.TEMP_DIR env) (fs st) = None ->
  is_dir (lookup (cwd env) (fs st)) = true ->
  let report := EvSpinner Fail ("Failed to fetch components: " ++
                                "fatal: unable to access the remote repository") in
  fs (exec (PackagesCli.add env component) st) = fs st /\
  fs (exec (PackagesCli.list env) st) = fs st /\
  fs (exec (Part001.list env) st) = fs st /\
  In report (log (exec (PackagesCli.list env) st)) /\
  In report (log (exec (Part001.list env) st)).
Proof.
  intros Off R L D report.
  assert (Clone : always_throws (git_clone env REPO_URL (Part001.TEMP_DIR env))).
  { now apply git_clone_offline. }
  split; [|split; [|split; [|split]]].
  - run_command. apply restored; auto.
    unfold PackagesCli.add_body.
    apply scratch_only_bind_throws; [apply scratch_only_add_prepare_v1|].
    unfold PackagesCli.add_prepare.
    apply always_throws_bind_r; intros _.
    apply always_throws_bind_r; intros _.
    now apply always_throws_bind_l.
  - run_command. apply restored; auto.
    unfold PackagesCli.list_body.
    apply scratch_only_bind_throws; [apply scratch_only_list_catalog_v1|].
    unfold PackagesCli.list_catalog.
    apply always_throws_bind_r; intros _.
    now apply always_throws_bind_l.
  - run_command. apply restored; auto.
    unfold Part001.list_body.
    apply scratch_only_bind_throws; [apply scratch_only_list_catalog_v2|].
    unfold Part001.list_catalog.
    apply always_throws_bind_r; intros _.
    now apply always_throws_bind_l.
  - run_command. apply cleaned_log.
    destruct (fetch_offline env (logged (EvSpinner Start "Fetching components...") st)
                Off L D) as [t1 F].
    unfold PackagesCli.list_body.
    rewrite run_bind, list_catalog_v1_fetch, run_bind, F. simpl.
    apply in_or_app; right; left; reflexivity.
  - run_command. apply cleaned_log.
    destruct (fetch_offline env (logged (EvSpinner Start "Fetching components...") st)
                Off L D) as [t1 F].
    unfold Part001.list_body.
    rewrite run_bind, list_catalog_v2_fetch, run_bind, F. simpl.
    apply in_or_app; right; left; reflexivity.
Qed.

Lemma offline_restores_tree_witness :
  fs (exec (PackagesCli.add More.env_offline "button") Sample.bare) = fs Sample.bare.
Proof.
  exact (proj1 (offline_restores_tree More.env_offline "button" Sample.bare
                  eq_refl eq_refl eq_refl eq_refl)).
Defined.

(** ** [add] to its end *)

Lemma manifest_makes_directory (env : Env) (t : Node) :
  exists_at (resolve env "package.json") t = true ->
  is_dir (lookup (cwd env) t) = true.
Proof.
  unfold exists_at. rewrite manifest_path, lookup_app.
  destruct (lookup (cwd env) t) as [[c|es]|]; simpl; auto; discriminate.
Qed.

Lemma add_prepare_v1_validated (env : Env) (component : string) (st s : State) :
  PackagesCli.add_prepare env component st = (Normal tt, s) ->
  is_dir (lookup (cwd env) (fs st)) = true.
Proof.
  unfold PackagesCli.add_prepare. intros E.
  apply bind_normal in E as ([] & s1 & V & _).
  unfold PackagesCli.checkProjectConfig in V.
  rewrite run_bind, run_pathExists in V.
  destruct (exists_at (resolve env "package.json") (fs st)) eqn:X;
    [now apply manifest_makes_directory | discriminate].
Qed.

(** X11.  [add] of index.ts, asked for a component the fetched tree does not
    have, leaves exactly the file tree it found (no scratch directory lying
    around beforehand, the removal not refused): the fetch is undone and
    nothing else was written. *)
Theorem add_unknown_restores_tree (env : Env) (component : string) (st s : State) :
  PackagesCli.add_prepare env component
    (logged (EvSpinner Start "Fetching component...") st) = (Normal tt, s) ->
  exists_at (PackagesCli.componentPath env component) (fs s) = false ->
  remove_fails env = false ->
  lookup (Part001.TEMP_DIR env) (fs st) = None ->
  fs (exec (PackagesCli.add env component) st) = fs st.
Proof.
  intros Prep Absent R L.
  assert (D : is_dir (lookup (cwd env) (fs st)) = true).
  { exact (add_prepare_v1_validated env component _ _ Prep). }
  run_command. rewrite cleaned_fs, settled_fs by assumption.
  unfold PackagesCli.add_body.
  rewrite run_bind, Prep, run_bind.
  unfold PackagesCli.add_install.
  rewrite run_bind, run_pathExists, Absent. simpl.
  destruct (scratch_only_add_prepare_v1 env component
              (logged (EvSpinner Start "Fetching component...") st) D) as [_ E].
  rewrite Prep in E. simpl in E. rewrite E. now apply rm_absent.
Qed.

Lemma add_unknown_restores_tree_witness :
  fs (exec (PackagesCli.add Sample.env "ghost") Sample.initialised)
  = fs Sample.initialised.
Proof.
  exact (add_unknown_restores_tree Sample.env "ghost" Sample.initialised _
           eq_refl eq_refl eq_refl eq_refl).
Defined.

Lemma scratch_apart_global_v1 (env : Env) :
  diverge (Part001.TEMP_DIR env) (PackagesCli.globalStylePath env) = true.
Proof. rewrite global_path_v1. now apply scratch_apart. Qed.

Lemma scratch_apart_global_v2 (env : Env) :
  diverge (Part001.TEMP_DIR env) (Part001.globalStylePath env) = true.
Proof. rewrite global_path_v2. now apply scratch_apart. Qed.

(** The end of [add] when the merge step returns. *)
Lemma add_succeeds_after_merge (prepare_install merge : M unit) (report : string)
  (s s' : State) (st : State) :
  prepare_install st = (Normal tt, s) ->
  merge s = (Normal tt, s') ->
  settled "Failed to add component: "
    (bind prepare_install (fun _ => merge ;; spinner Succeed report) st)
  = logged (EvSpinner Succeed report) s'.
Proof.
  intros P Mg. rewrite run_bind, P, run_bind, Mg. reflexivity.
Qed.

(** X12.  Once [add] has copied the component, the command succeeds in two
    cases: the component has no [styles.css], and then nothing more is
    written (the global stylesheet may even be missing); or it has one and
    the global stylesheet is a file, and then the stylesheet ends up with
    the merged text.  In both the success is reported and the scratch
    directory is cleaned up. *)
Theorem add_succeeds (env : Env) (component : string) (st s : State) :
  (Part001.add_prepare env component ;; Part001.add_install env component)
    (logged (EvSpinner Start "Fetching component...") st) = (Normal tt, s) ->
  let css := path_join (Part001.componentPath env component) ["styles.css"] in
  let report := EvSpinner Succeed ("Successfully added " ++ component ++
                                   " component to src/components/" ++ component) in
  let final := exec (Part001.add env component) st in
  (exists_at css (fs s) = false ->
   final = cleaned env (mkState (fs s) (log s ++ [EvFs PathExists css; report])%list)) /\
  (forall componentStyles globalStyles,
     lookup css (fs s) = Some (File componentStyles) ->
     lookup (Part001.globalStylePath env) (fs s) = Some (File globalStyles) ->
     In report (log final) /\
     lookup (Part001.globalStylePath env) (fs final)
     = Some (File (merged globalStyles componentStyles))).
Proof.
  intros Prep css report final. subst css report final. split.
  - intros NoCss. run_command. unfold Part001.add_body.
    rewrite <- bind_assoc_run. unfold Part001.add_finish.
    rewrite mergeStyles_v2.
    rewrite (add_succeeds_after_merge _ _ _ s _ _ Prep
               (mergeStyles_at_skips _ _ s NoCss)).
    unfold logged; simpl. rewrite <- app_assoc. reflexivity.
  - intros f g Lf Lg.
    destruct (mergeStyles_at_result (Part001.globalStylePath env)
                (Part001.componentPath env component) f
                (global_not_root_v2 env)
                ltac:(rewrite global_path_v2;
                      apply (fragment_not_global _ (cwd env) ["src"; "styles"]))
                s g Lf Lg) as (s' & Run & G & _).
    run_command. unfold Part001.add_body.
    rewrite <- bind_assoc_run. unfold Part001.add_finish.
    rewrite mergeStyles_v2.
    rewrite (add_succeeds_after_merge _ _ _ s s' _ Prep Run).
    split.
    + apply cleaned_log. unfold logged; simpl.
      apply in_or_app; right; left; reflexivity.
    + rewrite cleaned_keeps by apply scratch_apart_global_v2. exact G.
Qed.

Lemma add_succeeds_witness :
  lookup (Part001.globalStylePath Sample.env)
         (fs (exec (Part001.add Sample.env "button") Sample.initialised))
  = Some (File (".btn{}" ++ newline ++ ".btn{}" ++ newline)).
Proof.
  destruct (add_succeeds Sample.env "button" Sample.initialised _ eq_refl)
    as [_ Styled].
  exact (proj2 (Styled _ _ eq_refl eq_refl)).
Defined.

(** ** The rewrite of the tailwind configuration *)

Lemma replace_content_eq (s : string) :
  replace_content s =
  match match_content s with
  | Some rest => content_replacement ++ rest
  | None =>
      match s with
      | EmptyString => EmptyString
      | String c s' => String c (replace_content s')
      end
  end.
Proof. destruct s; reflexivity. Qed.

Lemma match_content_eq (s : string) :
  match_content s = if prefix "content:" s then bracketed (drop 8 s) else None.
Proof. reflexivity. Qed.

Lemma match_replacement (rest : string) :
  match_content (content_replacement ++ rest) = Some rest.
Proof. reflexivity. Qed.

Lemma includes_false_prefix (s t : string) :
  includes s t = false -> prefix t s = false.
Proof.
  destruct s; cbn [includes]; intros H; apply orb_false_iff in H; tauto.
Qed.

Lemma includes_false_tail (c : ascii) (s t : string) :
  includes (String c s) t = false -> includes s t = false.
Proof. cbn [includes]. intros H. apply orb_false_iff in H. tauto. Qed.

(** X13.  A configuration text in which ["content:"] does not occur is left
    as it is by the rewrite of [modifyTailwindConfig]. *)
Theorem replace_content_without_key (config : string) :
  includes config "content:" = false -> replace_content config = config.
Proof.
  induction config as [|c s IH]; intros H; [reflexivity|].
  rewrite replace_content_eq, match_content_eq.
  rewrite (includes_false_prefix _ _ H).
  now rewrite IH by (eapply includes_false_tail; eauto).
Qed.

Lemma replace_content_without_key_witness :
  replace_content "module.exports = { theme: {} }" = "module.exports = { theme: {} }".
Proof. exact (replace_content_without_key "module.exports = { theme: {} }" eq_refl). Defined.

(** The rewrite changes one stretch of the text or nothing. *)
Lemma replace_content_shape (s : string) :
  replace_content s = s \/
  exists pre m rest,
    s = pre ++ m /\ match_content m = Some rest /\
    replace_content s = pre ++ content_replacement ++ rest.
Proof.
  induction s as [|c s IH].
  - left. reflexivity.
  - rewrite replace_content_eq.
    destruct (match_content (String c s)) as [rest|] eqn:Mc.
    + right. exists EmptyString, (String c s), rest. auto.
    + destruct IH as [-> | (pre & m & rest & -> & Mm & ->)].
      * left. reflexivity.
      * right. exists (String c pre), m, rest. auto.
Qed.

(** Behind a text that does not hold the character [x], a pattern made of
    other characters ends within the text or not at all. *)
Lemma prefix_app_other (pat u : string) (x : ascii) (X : string) :
  pat <> EmptyString ->
  (forall a b, pat = a ++ String x b -> False) ->
  prefix pat (u ++ String x X) = prefix pat u.
Proof.
  revert u. induction pat as [|p pat IH]; intros u N Other; [congruence|].
  destruct u as [|c u]; simpl.
  - destruct (ascii_dec p x) as [->|Npx]; [|reflexivity].
    exfalso. apply (Other EmptyString pat). reflexivity.
  - destruct (ascii_dec p c) as [_|_]; [|reflexivity].
    destruct pat as [|q pat']; [destruct u; reflexivity|].
    apply IH; [discriminate|].
    intros a b E. apply (Other (String p a) b). simpl. now rewrite E.
Qed.

Lemma key_tail_has_no_c (a b : string) : "ontent:" = a ++ String "c" b -> False.
Proof.
  repeat (destruct a as [|? a]; simpl; [discriminate|];
          intros E; injection E as _ E; revert E).
  destruct a; discriminate.
Qed.

Lemma prefix_key_app (u : string) (X : string) :
  u <> EmptyString ->
  prefix "content:" (u ++ String "c" X) = prefix "content:" u.
Proof.
  intros N. destruct u as [|c u]; [congruence|].
  change (String c u ++ String "c" X) with (String c (u ++ String "c" X)).
  cbn [prefix].
  destruct (ascii_dec "c" c) as [_|_]; [|reflexivity].
  apply (prefix_app_other "ontent:" u "c" X); [discriminate|].
  exact key_tail_has_no_c.
Qed.

Lemma after_first_app (c : ascii) (v X : string) :
  after_first c X <> None -> after_first c (v ++ X) <> None.
Proof.
  intros H. induction v as [|d v IH]; simpl; [assumption|].
  destruct (Ascii.eqb c d); [discriminate | assumption].
Qed.

Lemma bracketed_app (v X1 X2 : string) :
  closes X1 -> closes X2 ->
  bracketed (v ++ X1) = None -> bracketed (v ++ X2) = None.
Proof.
  intros [[r1 ->] C1] [[r2 ->] C2].
  induction v as [|d v IH]; intros H.
  - reflexivity.
  - unfold bracketed in *. simpl in *.
    destruct (is_space d); [exact (IH H)|].
    destruct (Ascii.eqb d "[") eqn:E; [|reflexivity].
    exfalso. revert H. now apply after_first_app.
Qed.

Lemma match_content_app (u X1 X2 : string) :
  u <> EmptyString -> closes X1 -> closes X2 ->
  match_content (u ++ X1) = None -> match_content (u ++ X2) = None.
Proof.
  intros N G1 G2. rewrite !match_content_eq.
  destruct G1 as [[r1 E1] C1]. destruct G2 as [[r2 E2] C2]. subst X1 X2.
  rewrite !prefix_key_app by assumption.
  destruct (prefix "content:" u) eqn:P; [|reflexivity].
  apply prefix_split in P as [v ->].
  change (drop 8 (("content:" ++ v) ++ String "c" r1)) with (v ++ String "c" r1).
  change (drop 8 (("content:" ++ v) ++ String "c" r2)) with (v ++ String "c" r2).
  apply bracketed_app; split; eauto.
Qed.

Lemma skip_space_keeps_bracket (b : string) :
  after_first "]" (skip_space b) <> None -> after_first "]" b <> None.
Proof.
  induction b as [|d b IH]; cbn [skip_space after_first]; [auto|].
  destruct (is_space d) eqn:S; cbn [after_first]; [|auto].
  intros H. destruct (Ascii.eqb "]" d) eqn:E; [discriminate | auto].
Qed.

Lemma matched_closes (m rest : string) : match_content m = Some rest -> closes m.
Proof.
  rewrite match_content_eq.
  destruct (prefix "content:" m) eqn:P; [|discriminate].
  apply prefix_split in P as [b ->].
  change (drop 8 ("content:" ++ b)) with b.
  unfold bracketed. intros H. split; [eexists; reflexivity|].
  change (after_first "]" b <> None).
  apply skip_space_keeps_bracket.
  destruct (skip_space b) as [|c r]; [discriminate|].
  destruct (Ascii.eqb c "[") eqn:E; [|discriminate].
  apply Ascii.eqb_eq in E. subst c. simpl. now rewrite H.
Qed.

Lemma replacement_closes (rest : string) : closes (content_replacement ++ rest).
Proof. split; [eexists; reflexivity | discriminate]. Qed.

(** X14.  The rewrite of [modifyTailwindConfig] is idempotent: the text it
    produces is left as it is by a second rewrite. *)
Theorem replace_content_idempotent (config : string) :
  replace_content (replace_content config) = replace_content config.
Proof.
  induction config as [|c s IH]; [reflexivity|].
  rewrite (replace_content_eq (String c s)).
  destruct (match_content (String c s)) as [rest|] eqn:Mc.
  - now rewrite replace_content_eq, match_replacement.
  - rewrite replace_content_eq.
    assert (Mc' : match_content (String c (replace_content s)) = None).
    { destruct (replace_content_shape s) as [-> | (pre & m & rest & -> & Mm & ->)];
        [assumption|].
      apply (match_content_app (String c pre) m (content_replacement ++ rest));
        [discriminate | eapply matched_closes; eauto | apply replacement_closes
        | assumption]. }
    rewrite Mc'. now rewrite IH.
Qed.

(** ** Copying a component *)

Lemma Node_induction (P : Node -> Prop) :
  (forall c, P (File c)) ->
  (forall es, Forall (fun kc => P (snd kc)) es -> P (Dir es)) ->
  forall n, P n.
Proof.
  intros HF HD. fix IH 1. intros [c|es]; [apply HF|].
  apply HD. induction es as [|kc es IHes]; constructor; [apply IH | exact IHes].
Qed.

Lemma overlay_dir (es : list (string * Node)) (dst : option Node) :
  overlay (Dir es) dst =
  match dst with
  | Some (File _) => (false, dst)
  | _ =>
      let '(ok, ds') :=
        overlay_entries es (match dst with Some (Dir ds) => ds | _ => [] end) in
      (ok, Some (Dir ds'))
  end.
Proof.
  assert (G : forall es ds,
             (fix go (es : list (string * Node)) (ds : list (string * Node))
                {struct es} : bool * list (string * Node) :=
                match es with
                | [] => (true, ds)
                | (k, child) :: es' =>
                    match overlay child (assoc k ds) with
                    | (true, Some c) => go es' (set_assoc k c ds)
                    | (true, None) => go es' ds
                    | (false, Some c) => (false, set_assoc k c ds)
                    | (false, None) => (false, ds)
                    end
                end) es ds = overlay_entries es ds).
  { induction es0 as [|[k child] es' IH]; intros ds; [reflexivity|].
    simpl. destruct (overlay child (assoc k ds)) as [[|] [c|]]; auto. }
  destruct dst as [[c|ds]|]; simpl; try reflexivity; now rewrite G.
Qed.

Lemma assoc_in {A : Type} (k : string) (v : A) (l : list (string * A)) :
  assoc k l = Some v -> In (k, v) l.
Proof.
  induction l as [|[k0 v0] l IH]; simpl; [discriminate|].
  destruct (String.eqb_spec k k0) as [->|N].
  - intros E. injection E as ->. now left.
  - intros E. right. auto.
Qed.

Lemma assoc_not_in {A : Type} (k : string) (l : list (string * A)) :
  ~ In k (map fst l) -> assoc k l = None.
Proof.
  induction l as [|[k0 v0] l IH]; simpl; [reflexivity|].
  intros N. destruct (String.eqb_spec k k0) as [->|Nk]; [tauto|].
  apply IH. tauto.
Qed.

Lemma overlay_gives (n : Node) (d : option Node) : snd (overlay n d) <> None.
Proof.
  destruct n as [c|es].
  - destruct d as [[c0|ds]|]; discriminate.
  - rewrite overlay_dir. destruct d as [[c0|ds]|]; try discriminate;
      destruct (overlay_entries es _); discriminate.
Qed.

(** The loop leaves the names it does not meet as they are. *)
Lemma overlay_entries_other (es ds ds' : list (string * Node)) (ok : bool) (k : string) :
  overlay_entries es ds = (ok, ds') ->
  ~ In k (map fst es) ->
  assoc k ds' = assoc k ds.
Proof.
  revert ds. induction es as [|[k0 child] es IH]; intros ds E N; simpl in *.
  - injection E as _ <-. reflexivity.
  - assert (Nk : k0 <> k) by tauto. assert (N' : ~ In k (map fst es)) by tauto.
    destruct (overlay child (assoc k0 ds)) as [[|] [c|]].
    + rewrite (IH _ E N'). now apply assoc_set_neq.
    + exact (IH _ E N').
    + injection E as _ <-. now apply assoc_set_neq.
    + injection E as _ <-. reflexivity.
Qed.

(** Each entry the loop meets ends up as the overlay of its child. *)
Lemma overlay_entries_child (es ds ds' : list (string * Node))
  (k : string) (child : Node) :
  NoDup (map fst es) ->
  overlay_entries es ds = (true, ds') ->
  assoc k es = Some child ->
  exists d0 r, overlay child d0 = (true, Some r) /\ assoc k ds' = Some r.
Proof.
  revert ds. induction es as [|[k0 c0] es IH]; intros ds ND E A; simpl in *.
  - discriminate.
  - inversion ND as [|? ? Nin ND']; subst.
    destruct (String.eqb_spec k k0) as [->|Nk].
    + injection A as ->.
      destruct (overlay child (assoc k0 ds)) as [[|] [c|]] eqn:O; try discriminate.
      * exists (assoc k0 ds), c. split; [assumption|].
        rewrite (overlay_entries_other _ _ _ _ _ E Nin). apply assoc_set_eq.
      * exfalso. apply (overlay_gives child (assoc k0 ds)). now rewrite O.
    + destruct (overlay c0 (assoc k0 ds)) as [[|] [c|]]; try discriminate; eauto.
Qed.

(** A copy that went through holds every file of the source. *)
Lemma overlay_files (n : Node) :
  wf n ->
  forall d r, overlay n d = (true, Some r) ->
  forall q text, lookup q n = Some (File text) -> lookup q r = Some (File text).
Proof.
  induction n as [c|es IH] using Node_induction; intros W d r O q text L.
  - destruct q; [|discriminate]. simpl in L. injection L as ->.
    destruct d as [[c0|ds]|]; simpl in O; try discriminate;
      injection O as <-; reflexivity.
  - inversion W as [|? ND Wc]; subst.
    rewrite overlay_dir in O.
    destruct q as [|k q]; [discriminate|]. simpl in L.
    destruct (assoc k es) as [child|] eqn:A; [|discriminate].
    assert (Es : exists ds0 ds', overlay_entries es ds0 = (true, ds') /\ r = Dir ds').
    { destruct d as [[c0|ds]|]; try discriminate;
        destruct (overlay_entries es _) as [ok ds'] eqn:E;
        injection O as -> <-; eauto. }
    destruct Es as (ds0 & ds' & E & ->).
    destruct (overlay_entries_child _ _ _ _ _ ND E A) as (d0 & rk & Ok & Ak).
    simpl. rewrite Ak.
    pose proof (assoc_in _ _ _ A) as Hin.
    rewrite Forall_forall in IH.
    exact (IH _ Hin (Wc _ _ Hin) _ _ Ok _ _ L).
Qed.

Lemma copy_places (src dst : path) (st st' : State) (n : Node) :
  copy src dst st = (Normal tt, st') ->
  lookup src (fs st) = Some n ->
  wf n ->
  forall q text, lookup q n = Some (File text) ->
                 lookup (dst ++ q)%list (fs st') = Some (File text).
Proof.
  intros C L W q text Lq.
  unfold copy in C.
  apply bind_normal in C as ([] & s1 & Ev & C).
  unfold emit in Ev. injection Ev as <-.
  apply bind_normal in C as (t & s2 & G & C).
  unfold get_fs in G. injection G as <- <-. cbn [fs] in C.
  rewrite L in C.
  destruct (path_eqb src dst); [discriminate|].
  destruct (is_dir (Some n) && is_prefix src dst); [discriminate|].
  destruct (overlay n (lookup dst (fs st))) as [ok [d|]] eqn:O; [|discriminate].
  destruct (place dst d (Some (fs st))) as [t'|] eqn:P; [|discriminate].
  apply bind_normal in C as ([] & s3 & Sf & C).
  unfold set_fs in Sf. injection Sf as <-.
  destruct ok; [|discriminate]. unfold ret in C. injection C as <-. simpl.
  rewrite lookup_app, (place_lookup _ _ _ _ P).
  exact (overlay_files n W _ _ O q text Lq).
Qed.

Lemma finish_fs (merge : M unit) (report : string) (s : State) :
  fs (snd ((merge ;; spinner Succeed report) s)) = fs (snd (merge s)).
Proof. unfold bind. destruct (merge s) as [[[]|e] s']; reflexivity. Qed.

Lemma stylesheet_not_component (env : Env) (component : string) (q : path) :
  (cwd env ++ ["src"; "components"; component] ++ q)%list
  <> Part001.globalStylePath env.
Proof.
  rewrite global_path_v2. intros E. apply app_inv_head in E. simpl in E. discriminate.
Qed.

(** X15.  [add] of part_001 places the component: for a component name of
    one segment whose directory in the fetched tree holds no name twice,
    once the copy has gone through, every file of that directory is, when
    the command ends, under [src/components/<name>] at the same relative
    path and with the same text, whether or not the style merge that
    follows succeeds. *)
Theorem add_places_component
  (env : Env) (component : string) (st s : State) (n : Node) :
  plain component ->
  Part001.add_prepare env component
    (logged (EvSpinner Start "Fetching component...") st) = (Normal tt, s) ->
  lookup (Part001.componentPath env component) (fs s) = Some n ->
  wf n ->
  completion (Part001.add_install env component) s = Normal tt ->
  forall q text,
    lookup q n = Some (File text) ->
    lookup (cwd env ++ ["src"; "components"; component] ++ q)%list
           (fs (exec (Part001.add env component) st))
    = Some (File text).
Proof.
  intros Pl Prep Ln W Inst q text Lq.
  run_command.
  rewrite cleaned_keeps by now apply scratch_apart.
  rewrite settled_fs. unfold Part001.add_body.
  rewrite run_bind, Prep, run_bind.
  unfold completion in Inst.
  destruct (Part001.add_install env component s) as [[[]|e] s2] eqn:I;
    [|discriminate].
  unfold Part001.add_finish. rewrite finish_fs, mergeStyles_v2.
  apply (proj2 (append_only_at _ (Part001.componentPath env component) s2
                  (global_not_root_v2 env))).
  { apply stylesheet_not_component. }
  unfold Part001.add_install in I.
  apply bind_normal in I as (found & s1 & Px & I).
  rewrite run_pathExists in Px. injection Px as <- <-.
  apply bind_normal in I as ([] & s1' & Chk & I).
  assert (s1' = logged (EvFs PathExists (Part001.componentPath env component)) s).
  { destruct (negb _); [discriminate|]. unfold ret in Chk. now injection Chk as <-. }
  subst s1'.
  rewrite (target_path_plain_v2 env component Pl) in I.
  rewrite app_assoc. exact (copy_places _ _ _ _ n I Ln W q text Lq).
Qed.

Lemma add_places_component_witness :
  lookup ["home"; "app"; "src"; "components"; "button"; "index.tsx"]
         (fs (exec (Part001.add Sample.env "button") Sample.initialised))
  = Some (File "export const Button = 1").
Proof.
  refine (add_places_component Sample.env "button" Sample.initialised _
            (Dir [("index.tsx", File "export const Button = 1");
                  ("styles.css", File (".btn{}" ++ newline))])
            _ eq_refl eq_refl _ eq_refl ["index.tsx"] _ eq_refl).
  - repeat split; discriminate.
  - constructor.
    + repeat constructor; simpl; intuition discriminate.
    + intros k child [E|[E|[]]]; injection E as _ <-; constructor.
Defined.



(** ** [init] to its end *)




Lemma keeps_weaken {A : Type} (P Q : path -> Prop) (m : M A) :
  (forall q, Q q -> P q) -> keeps P m -> keeps Q m.
Proof. intros W K st q Hq. apply K. auto. Qed.






Section InitPaths.
Variable env : Env.

End InitPaths.




(** ** The prompt of [list] in part_001 *)

Lemma list_v2_offers_components_witness :
  In (EvPrompt ["button"; "card"])
     (log (exec (Part001.list Sample.env) Sample.bare)) /\
  (In (EvPrompt ["button"; "card"]) (log Sample.bare) \/
   Forall component_name ["button"; "card"]).
Proof.
  assert (H : In (EvPrompt ["button"; "card"])
                 (log (exec (Part001.list Sample.env) Sample.bare))).
  { vm_compute. repeat (try (left; reflexivity); right). }
  split; [exact H|].
  exact (list_v2_offers_components Sample.env Sample.bare _ H).
Defined.

Lemma list_v2_empty_catalog_witness :
  let s := snd (Part001.list_catalog Sample.env_empty
                  (logged (EvSpinner Start "Fetching components...") Sample.bare)) in
  completion (Part001.list Sample.env_empty) Sample.bare = Normal tt /\
  exec (Part001.list Sample.env_empty) Sample.bare =
  cleaned Sample.env_empty
    (mkState (fs s)
       (log s ++ [EvSpinner Stop EmptyString;
                  EvSpinner Info "No components available"])%list).
Proof.
  exact (list_v2_empty_catalog Sample.env_empty Sample.bare _ eq_refl).
Defined.

(** ** Instances of the properties above *)

Lemma checkVersion_never_fails_witness :
  lookup (path_join (PackagesCli.TEMP_DIR Sample.env) ["package.json"])
         (fs Sample.bare) = None /\
  log (exec (PackagesCli.checkVersion Sample.env) Sample.bare) =
  (log Sample.bare ++
   [EvFs ReadJson (path_join (PackagesCli.TEMP_DIR Sample.env) ["package.json"]);
    EvWarn "Unable to check versions"])%list.
Proof.
  split; [reflexivity|].
  pose proof (checkVersion_never_fails Sample.env Sample.bare) as (_ & _ & H).
  apply H. reflexivity.
Defined.

Lemma checkComponentDependencies_reads_only_witness :
  plain "button" /\
  is_prefix (Part001.componentPath Sample.env "button")
            (path_join (path_join (Part001.TEMP_DIR Sample.env) ["components"; "button"])
                       ["types.ts"]) = false.
Proof.
  assert (P : plain "button") by (repeat split; discriminate).
  split; [exact P|].
  pose proof (checkComponentDependencies_reads_only Sample.env "button" Sample.bare)
    as H.
  cbv zeta in H. destruct H as (_ & H). destruct (H P) as (_ & _ & D). exact D.
Defined.

Lemma cleanupTemp_only_scratch_witness :
  diverge (Part001.TEMP_DIR Sample.env) ["home"; "app"; "package.json"] = true /\
  lookup ["home"; "app"; "package.json"]
         (fs (exec (Part001.cleanupTemp Sample.env) Sample.stale))
  = lookup ["home"; "app"; "package.json"] (fs Sample.stale).
Proof.
  split; [reflexivity|].
  pose proof (cleanupTemp_only_scratch Sample.env Sample.stale) as H.
  cbv zeta in H. destruct H as (_ & _ & H & _). apply H. reflexivity.
Defined.

Lemma mergeStyles_append_only_witness :
  lookup (Part001.globalStylePath Sample.env) (fs Sample.fetched)
    = Some (File ".btn{}") /\
  exists suffix,
    lookup (Part001.globalStylePath Sample.env)
           (fs (exec (Part001.mergeStyles Sample.env Sample.button_path) Sample.fetched))
    = Some (File (".btn{}" ++ suffix)).
Proof.
  split; [reflexivity|].
  pose proof (mergeStyles_append_only Sample.env Sample.button_path Sample.fetched)
    as (H & _).
  apply H. reflexivity.
Defined.
